(** * The ingress controller reconciler
    ([pkg/operator/controller/ingress/controller.go])

    A shallow embedding of the reconciler: its admission pipeline
    ([admit], [setDefaultDomain], [setDefaultPublishingStrategy],
    [validate]), its deletion protocol ([ensureIngressDeleted]), its
    convergence procedure ([ensureIngressController]) and the driver
    ([Reconcile]), followed by the properties the specification states
    about them.

    Go pointers to publishing-strategy objects are locations of a heap
    (a [gmap]), so that two fields holding the same pointer share one
    object.  Calls to the API client, the cache, the event recorder and
    to reconciler methods defined in other files are calls through an
    interface record; every such call is also appended to a log of
    operations, which is what the frame and ordering properties talk
    about. *)

From stdpp Require Import gmap strings list.

Set Warnings "-register-all".

(** ** API types *)

(** [operatorv1.EndpointPublishingStrategyType] *)
Definition LoadBalancerServiceStrategyType : string := "LoadBalancerService".
Definition HostNetworkStrategyType : string := "HostNetwork".
Definition PrivateStrategyType : string := "Private".

(** [operatorv1.LoadBalancerScope] *)
Definition InternalLoadBalancer : string := "Internal".
Definition ExternalLoadBalancer : string := "External".

(** [configv1.PlatformType] *)
Definition AWSPlatformType : string := "AWS".
Definition AzurePlatformType : string := "Azure".
Definition GCPPlatformType : string := "GCP".
Definition LibvirtPlatformType : string := "Libvirt".
Definition OpenStackPlatformType : string := "OpenStack".
Definition NonePlatformType : string := "None".
Definition VSpherePlatformType : string := "VSphere".

(** [operatorv1.ConditionStatus] *)
Definition ConditionTrue : string := "True".
Definition ConditionFalse : string := "False".
Definition ConditionUnknown : string := "Unknown".

(** Modelled from the spec: the constant
    [iov1.IngressControllerAdmittedConditionType] is declared in
    [pkg/api/v1]; the specification names the condition [Admitted]. *)
Definition IngressControllerAdmittedConditionType : string := "Admitted".

(** [manifests.IngressControllerFinalizer] is declared in [pkg/manifests];
    its value is the one quoted by the comment in [ensureIngressDeleted]. *)
Definition IngressControllerFinalizer : string :=
  "ingresscontroller.operator.openshift.io/finalizer-ingresscontroller".

Record LoadBalancerStrategy := { lb_Scope : string }.

(** [LoadBalancer] is a pointer in Go.  The only strategy parameters this
    file ever stores are ones it has just allocated, so the pointer is
    kept as an optional value: [None] is [nil]. *)
Record EndpointPublishingStrategy := {
  eps_Type : string;
  eps_LoadBalancer : option LoadBalancerStrategy
}.

Record OperatorCondition := {
  cond_Type : string;
  cond_Status : string;
  cond_Reason : string;
  cond_Message : string
}.

(** The three records below take the representation [P] of a pointer to a
    publishing strategy as a parameter: in memory it is a heap location
    ([loc]); on the wire (what the client sends and receives) it is the
    strategy itself. *)
Record IngressControllerSpec (P : Type) := {
  spec_Domain : string;
  spec_Replicas : option Z;
  spec_EndpointPublishingStrategy : option P
}.
Arguments spec_Domain {P} _.
Arguments spec_Replicas {P} _.
Arguments spec_EndpointPublishingStrategy {P} _.

Record IngressControllerStatus (P : Type) := {
  status_AvailableReplicas : Z;
  status_Selector : string;
  status_Domain : string;
  status_EndpointPublishingStrategy : option P;
  status_Conditions : list OperatorCondition
}.
Arguments status_AvailableReplicas {P} _.
Arguments status_Selector {P} _.
Arguments status_Domain {P} _.
Arguments status_EndpointPublishingStrategy {P} _.
Arguments status_Conditions {P} _.

Record IngressControllerOf (P : Type) := {
  Name : string;
  Namespace : string;
  UID : string;
  DeletionTimestamp : option Z;
  Finalizers : list string;
  Spec : IngressControllerSpec P;
  Status : IngressControllerStatus P
}.
Arguments Name {P} _.
Arguments Namespace {P} _.
Arguments UID {P} _.
Arguments DeletionTimestamp {P} _.
Arguments Finalizers {P} _.
Arguments Spec {P} _.
Arguments Status {P} _.

Definition loc := positive.

(** An ingresscontroller held in memory, and one in transit. *)
Definition IngressController := IngressControllerOf loc.
Definition IngressControllerObject := IngressControllerOf EndpointPublishingStrategy.

(** [configv1.Ingress], [configv1.Infrastructure], [configv1.DNS]: the
    fields this file reads. *)
Record IngressConfig := { ingresscfg_Domain : string }.
Record Infrastructure := { infra_Platform : string }.
Record DNSConfig := { dns_BaseDomain : string }.

(** Owned resources, as far as this file looks into them. *)
Record Deployment := { deploy_Name : string; deploy_UID : string }.
Record Service := { svc_Name : string }.
Record DNSRecord := { dnsrecord_Name : string }.
Record Event := { event_Reason : string; event_Message : string }.

Record OwnerReference := {
  ref_APIVersion : string;
  ref_Kind : string;
  ref_Name : string;
  ref_UID : string;
  ref_Controller : option bool
}.

Record NamespacedName := { nn_Namespace : string; nn_Name : string }.
Record Request := { req_NamespacedName : NamespacedName }.
Record Result := { Requeue : bool }.

(** ** Errors *)

(** The dynamic types of [error] values that this file distinguishes:
    an API status error (what [errors.IsNotFound] inspects), a plain
    message ([fmt.Errorf]), an admission rejection, and an aggregate
    ([utilerrors.NewAggregate]). *)
Inductive error :=
| StatusError (reason message : string)
| ErrorString (message : string)
| admissionRejection (Reason : string)
| Aggregate (errs : list error).

Definition StatusReasonNotFound : string := "NotFound".

(** [errors.IsNotFound] *)
Definition IsNotFound (err : error) : bool :=
  match err with
  | StatusError reason _ => bool_decide (reason = StatusReasonNotFound)
  | _ => false
  end.

(** The message of an aggregate: a single message is printed bare, several
    are bracketed and separated by a comma. *)
Definition aggregate_message (msgs : list string) : string :=
  match msgs with
  | [] => ""
  | [m] => m
  | m :: rest => "[" +:+ m +:+ String.concat "" (map (λ s, ", " +:+ s) rest) +:+ "]"
  end.

(** The [Error()] method. *)
Fixpoint Error (err : error) : string :=
  match err with
  | StatusError _ message => message
  | ErrorString message => message
  | admissionRejection Reason => Reason
  | Aggregate errs => aggregate_message (map Error errs)
  end.

(** [utilerrors.NewAggregate]: [nil] for an empty list.  A Go error list
    may hold [nil] entries, which [NewAggregate] drops; a [list error]
    holds none. *)
Definition NewAggregate (errs : list error) : option error :=
  match errs with
  | [] => None
  | _ => Some (Aggregate errs)
  end.

(** [fmt.Errorf] with a format that ends in [": %v"]. *)
Definition Errorf (prefix : string) (err : error) : error :=
  ErrorString (prefix +:+ ": " +:+ Error err).

(** [s] occurs in [t]. *)
Definition substring_of (s t : string) : Prop :=
  ∃ pre post, t = pre +:+ s +:+ post.

(** ** The reconciler's state, and the monad its methods run in *)

(** The log of a run: each call the reconciler makes on a collaborator,
    with what the call returned, in order.  Calls to [log] are omitted. *)
Inductive Op :=
| OpGetIngressController (key : NamespacedName) (got : error + IngressControllerObject)
| OpGetDNS (name : string) (got : error + DNSConfig)
| OpGetInfrastructure (name : string) (got : error + Infrastructure)
| OpGetIngress (name : string) (got : error + IngressConfig)
| OpUpdate (obj : IngressControllerObject) (err : option error)
| OpStatusUpdate (obj : IngressControllerObject) (err : option error)
| OpListIngressControllers (namespace : string)
    (got : error + list IngressControllerObject)
| OpListEvents (namespace : string) (got : list Event * option error)
| OpEvent (object eventtype reason message : string)
| OpFinalizeLoadBalancerService (err : option error)
| OpDeleteWildcardDNSRecord (err : option error)
| OpCurrentWildcardDNSRecord (got : option DNSRecord * option error)
| OpEnsureRouterDeleted (err : option error)
| OpEnsureRouterNamespace (err : option error)
| OpEnsureRouterDeployment (got : error + Deployment)
| OpEnsureLoadBalancerService (got : option Service * option error)
| OpEnsureWildcardDNSRecord (got : option DNSRecord * option error)
| OpEnsureInternalIngressControllerService (got : option Service * option error)
| OpEnsureMetricsIntegration (err : option error)
| OpEnsureRsyslogConfigMap (err : option error)
| OpEnsureRouterPodDisruptionBudget (err : option error)
| OpSyncIngressControllerStatus (err : option error).

(** What the reconciler depends on and this file does not define.  [X] is
    the state of the cluster as the collaborators see it.  A Go method
    returning [(v, err)] returns the pair of its two results where the
    caller may look at both, and a sum where a value is only there
    without an error.  A collaborator is handed an ingresscontroller with
    its pointers followed: it reads the object and does not write into the
    reconciler's memory. *)
Record Collaborators (X : Type) := {
  (* client.Client *)
  client_Get_IngressController :
    NamespacedName → X → (error + IngressControllerObject) * X;
  client_Get_DNS : string → X → (error + DNSConfig) * X;
  client_Get_Infrastructure : string → X → (error + Infrastructure) * X;
  client_Get_Ingress : string → X → (error + IngressConfig) * X;
  client_Update : IngressControllerObject → X → option error * X;
  client_Status_Update : IngressControllerObject → X → option error * X;
  (* cache.Cache *)
  cache_List_IngressControllers :
    string → X → (error + list IngressControllerObject) * X;
  cache_List_Events : string → X → (list Event * option error) * X;
  (* methods of the reconciler defined in other files of the package *)
  finalizeLoadBalancerService : IngressControllerObject → X → option error * X;
  deleteWildcardDNSRecord : IngressControllerObject → X → option error * X;
  currentWildcardDNSRecord :
    IngressControllerObject → X → (option DNSRecord * option error) * X;
  ensureRouterDeleted : IngressControllerObject → X → option error * X;
  ensureRouterNamespace : X → option error * X;
  ensureRouterDeployment :
    IngressControllerObject → Infrastructure → IngressConfig →
    X → (error + Deployment) * X;
  ensureLoadBalancerService :
    IngressControllerObject → OwnerReference → Infrastructure →
    X → (option Service * option error) * X;
  ensureWildcardDNSRecord :
    IngressControllerObject → option Service →
    X → (option DNSRecord * option error) * X;
  ensureInternalIngressControllerService :
    IngressControllerObject → OwnerReference →
    X → (option Service * option error) * X;
  ensureMetricsIntegration :
    IngressControllerObject → option Service → OwnerReference →
    X → option error * X;
  ensureRsyslogConfigMap :
    IngressControllerObject → OwnerReference → IngressConfig →
    X → option error * X;
  ensureRouterPodDisruptionBudget :
    IngressControllerObject → OwnerReference → X → option error * X;
  syncIngressControllerStatus :
    IngressControllerObject → Deployment → option Service → list Event →
    option DNSRecord → DNSConfig → X → option error * X;
  (* functions of the package and of [pkg/util/slice] *)
  mergeConditions : list OperatorCondition → OperatorCondition → list OperatorCondition;
  ingressStatusesEqual :
    IngressControllerStatus EndpointPublishingStrategy →
    IngressControllerStatus EndpointPublishingStrategy → bool;
  slice_ContainsString : list string → string → bool;
  slice_RemoveString : list string → string → list string;
  (* [%q] of [fmt] *)
  fmt_q : string → string
}.

Arguments client_Get_IngressController {X} _.
Arguments client_Get_DNS {X} _.
Arguments client_Get_Infrastructure {X} _.
Arguments client_Get_Ingress {X} _.
Arguments client_Update {X} _.
Arguments client_Status_Update {X} _.
Arguments cache_List_IngressControllers {X} _.
Arguments cache_List_Events {X} _.
Arguments finalizeLoadBalancerService {X} _.
Arguments deleteWildcardDNSRecord {X} _.
Arguments currentWildcardDNSRecord {X} _.
Arguments ensureRouterDeleted {X} _.
Arguments ensureRouterNamespace {X} _.
Arguments ensureRouterDeployment {X} _.
Arguments ensureLoadBalancerService {X} _.
Arguments ensureWildcardDNSRecord {X} _.
Arguments ensureInternalIngressControllerService {X} _.
Arguments ensureMetricsIntegration {X} _.
Arguments ensureRsyslogConfigMap {X} _.
Arguments ensureRouterPodDisruptionBudget {X} _.
Arguments syncIngressControllerStatus {X} _.
Arguments mergeConditions {X} _.
Arguments ingressStatusesEqual {X} _.
Arguments slice_ContainsString {X} _.
Arguments slice_RemoveString {X} _.
Arguments fmt_q {X} _.

Record State (X : Type) := {
  heap : gmap loc EndpointPublishingStrategy;
  cluster : X
}.
Arguments heap {X} _.
Arguments cluster {X} _.
Arguments Build_State {X} _ _.

(** A computation returns a value, the state it leaves and the operations
    it performed. *)
Definition M (X A : Type) : Type := State X → A * State X * list Op.

Definition ret {X A} (a : A) : M X A := λ s, (a, s, []).

Definition bind {X A B} (m : M X A) (k : A → M X B) : M X B :=
  λ s, let '(a, s1, t1) := m s in
       let '(b, s2, t2) := k a s1 in
       (b, s2, t1 ++ t2).

Notation "x <~ m ;; k" := (bind m (λ x, k))
  (at level 100, m at next level, right associativity).
Notation "m ;;; k" := (bind m (λ _, k))
  (at level 100, right associativity).

(** A call on a collaborator: run on the cluster state, and logged with
    its result. *)
Definition call {X A} (op : A → Op) (f : X → A * X) : M X A :=
  λ s, let '(a, x) := f (cluster s) in
       (a, {| heap := heap s; cluster := x |}, [op a]).

(** A call without a result ([record.EventRecorder.Event]). *)
Definition emit {X} (op : Op) : M X unit := λ s, (tt, s, [op]).

(** [&T{...}]: a fresh location holding [v]. *)
Definition alloc {X} (v : EndpointPublishingStrategy) : M X loc :=
  λ s, let l := fresh (dom (heap s)) in
       (l, {| heap := <[l := v]> (heap s); cluster := cluster s |}, []).

(** In-place update of the object at [l]. *)
Definition update {X} (l : loc)
    (f : EndpointPublishingStrategy → EndpointPublishingStrategy) : M X unit :=
  λ s, (tt, {| heap := alter f l (heap s); cluster := cluster s |}, []).

Definition get_heap {X} : M X (gmap loc EndpointPublishingStrategy) :=
  λ s, (heap s, s, []).

(** ** Moving objects between memory and the wire *)

Definition map_spec {P Q} (f : option P → option Q)
    (sp : IngressControllerSpec P) : IngressControllerSpec Q :=
  {| spec_Domain := spec_Domain sp;
     spec_Replicas := spec_Replicas sp;
     spec_EndpointPublishingStrategy := f (spec_EndpointPublishingStrategy sp) |}.

Definition map_status {P Q} (f : option P → option Q)
    (st : IngressControllerStatus P) : IngressControllerStatus Q :=
  {| status_AvailableReplicas := status_AvailableReplicas st;
     status_Selector := status_Selector st;
     status_Domain := status_Domain st;
     status_EndpointPublishingStrategy := f (status_EndpointPublishingStrategy st);
     status_Conditions := status_Conditions st |}.

(** What a pointer points to ([nil] stays [nil]). *)
Definition deref (h : gmap loc EndpointPublishingStrategy) (p : option loc)
    : option EndpointPublishingStrategy :=
  l ← p; h !! l.

Definition resolve_status (h : gmap loc EndpointPublishingStrategy)
    (st : IngressControllerStatus loc) : IngressControllerStatus EndpointPublishingStrategy :=
  map_status (deref h) st.

(** The object a client call sends: the record with its pointers followed. *)
Definition resolve (h : gmap loc EndpointPublishingStrategy)
    (ic : IngressController) : IngressControllerObject :=
  {| Name := Name ic; Namespace := Namespace ic; UID := UID ic;
     DeletionTimestamp := DeletionTimestamp ic; Finalizers := Finalizers ic;
     Spec := map_spec (deref h) (Spec ic);
     Status := resolve_status h (Status ic) |}.

Definition alloc_opt {X} (v : option EndpointPublishingStrategy) : M X (option loc) :=
  match v with
  | None => ret None
  | Some e => l <~ alloc e ;; ret (Some l)
  end.

(** Decoding a received object allocates its strategy objects. *)
Definition decode {X} (obj : IngressControllerObject) : M X IngressController :=
  sp <~ alloc_opt (spec_EndpointPublishingStrategy (Spec obj)) ;;
  st <~ alloc_opt (status_EndpointPublishingStrategy (Status obj)) ;;
  ret {| Name := Name obj; Namespace := Namespace obj; UID := UID obj;
         DeletionTimestamp := DeletionTimestamp obj; Finalizers := Finalizers obj;
         Spec := map_spec (λ _, sp) (Spec obj);
         Status := map_status (λ _, st) (Status obj) |}.

(** [DeepCopy] (generated): a new record whose pointers lead to new copies
    of what the original's pointed to. *)
Definition DeepCopy {X} (ic : IngressController) : M X IngressController :=
  h <~ get_heap ;;
  decode (resolve h ic).

(** Field assignments. *)
Definition set_Status {P} (ic : IngressControllerOf P)
    (st : IngressControllerStatus P) : IngressControllerOf P :=
  {| Name := Name ic; Namespace := Namespace ic; UID := UID ic;
     DeletionTimestamp := DeletionTimestamp ic; Finalizers := Finalizers ic;
     Spec := Spec ic; Status := st |}.

Definition set_Finalizers {P} (ic : IngressControllerOf P)
    (fs : list string) : IngressControllerOf P :=
  {| Name := Name ic; Namespace := Namespace ic; UID := UID ic;
     DeletionTimestamp := DeletionTimestamp ic; Finalizers := fs;
     Spec := Spec ic; Status := Status ic |}.

Definition set_status_Domain {P} (st : IngressControllerStatus P)
    (d : string) : IngressControllerStatus P :=
  {| status_AvailableReplicas := status_AvailableReplicas st;
     status_Selector := status_Selector st;
     status_Domain := d;
     status_EndpointPublishingStrategy := status_EndpointPublishingStrategy st;
     status_Conditions := status_Conditions st |}.

Definition set_status_EndpointPublishingStrategy {P} (st : IngressControllerStatus P)
    (p : option P) : IngressControllerStatus P :=
  {| status_AvailableReplicas := status_AvailableReplicas st;
     status_Selector := status_Selector st;
     status_Domain := status_Domain st;
     status_EndpointPublishingStrategy := p;
     status_Conditions := status_Conditions st |}.

Definition set_status_Conditions {P} (st : IngressControllerStatus P)
    (cs : list OperatorCondition) : IngressControllerStatus P :=
  {| status_AvailableReplicas := status_AvailableReplicas st;
     status_Selector := status_Selector st;
     status_Domain := status_Domain st;
     status_EndpointPublishingStrategy := status_EndpointPublishingStrategy st;
     status_Conditions := cs |}.

(** ** Functions of [controller.go] that touch no collaborator *)

(** The loop of [isAdmitted]. *)
Fixpoint isAdmitted_conditions (conds : list OperatorCondition) : bool :=
  match conds with
  | [] => false
  | cond :: rest =>
      if bool_decide (cond_Type cond = IngressControllerAdmittedConditionType)
         && bool_decide (cond_Status cond = ConditionTrue)
      then true
      else isAdmitted_conditions rest
  end.

Definition isAdmitted {P} (ic : IngressControllerOf P) : bool :=
  isAdmitted_conditions (status_Conditions (Status ic)).

(** [setDefaultDomain] assigns through its pointer argument; here it
    returns the record it leaves behind, next to its result. *)
Definition setDefaultDomain {P} (ic : IngressControllerOf P)
    (ingressConfig : IngressConfig) : IngressControllerOf P * bool :=
  let effectiveDomain :=
    if bool_decide (0 < String.length (spec_Domain (Spec ic)))
    then spec_Domain (Spec ic)
    else ingresscfg_Domain ingressConfig in
  if bool_decide (String.length (status_Domain (Status ic)) = 0)
  then (set_Status ic (set_status_Domain (Status ic) effectiveDomain), true)
  else (ic, false).

(** The switch on [infraConfig.Status.Platform]. *)
Definition defaultStrategyType (platform : string) : string :=
  if bool_decide (platform = AWSPlatformType)
     || bool_decide (platform = AzurePlatformType)
     || bool_decide (platform = GCPPlatformType)
  then LoadBalancerServiceStrategyType
  else if bool_decide (platform = LibvirtPlatformType)
  then HostNetworkStrategyType
  else HostNetworkStrategyType.

(** The switch on [effectiveStrategy.Type], as the change it makes to the
    strategy object. *)
Definition defaultStrategyParameters
    (e : EndpointPublishingStrategy) : EndpointPublishingStrategy :=
  if bool_decide (eps_Type e = LoadBalancerServiceStrategyType) then
    match eps_LoadBalancer e with
    | None => {| eps_Type := eps_Type e;
                 eps_LoadBalancer := Some {| lb_Scope := ExternalLoadBalancer |} |}
    | Some _ => e
    end
  else if bool_decide (eps_Type e = HostNetworkStrategyType) then e
  else if bool_decide (eps_Type e = PrivateStrategyType) then e
  else e.

Definition validateDomain {P} (ic : IngressControllerOf P) : option error :=
  if bool_decide (String.length (status_Domain (Status ic)) = 0)
  then Some (ErrorString "domain is required")
  else None.

Fixpoint validateDomainUniqueness {P Q} (desired : IngressControllerOf P)
    (existing : list (IngressControllerOf Q)) : option error :=
  match existing with
  | [] => None
  | current :: rest =>
      if negb (isAdmitted current) then validateDomainUniqueness desired rest
      else if bool_decide (UID desired ≠ UID current)
              && bool_decide (status_Domain (Status desired) = status_Domain (Status current))
      then Some (ErrorString ("conflicts with: " +:+ Name current))
      else validateDomainUniqueness desired rest
  end.

Definition IsStatusDomainSet {P} (ingress : IngressControllerOf P) : bool :=
  if bool_decide (String.length (status_Domain (Status ingress)) = 0)
  then false
  else true.

(** [errors = append(errors, err)] under [if err != nil]. *)
Definition append_error (errs : list error) (err : option error) : list error :=
  match err with
  | Some e => errs ++ [e]
  | None => errs
  end.

(** [Namespace/Name], the [String()] of a request. *)
Definition Request_String (request : Request) : string :=
  nn_Namespace (req_NamespacedName request) +:+ "/" +:+ nn_Name (req_NamespacedName request).

(** ** The reconciler *)

Record Config := { cfg_Namespace : string; cfg_IngressControllerImage : string }.

Section reconciler.
Context {X : Type} (r : Collaborators X) (config : Config).

(** [effectiveStrategy] is the pointer held by the spec when there is one,
    so the parameter default is written into the spec's own object, and
    the status then points to that same object. *)
Definition setDefaultPublishingStrategy (ic : IngressController)
    (infraConfig : Infrastructure) : M X (IngressController * bool) :=
  effectiveStrategy <~
    match spec_EndpointPublishingStrategy (Spec ic) with
    | Some l => ret l
    | None =>
        let strategyType := defaultStrategyType (infra_Platform infraConfig) in
        alloc {| eps_Type := strategyType; eps_LoadBalancer := None |}
    end ;;
  update effectiveStrategy defaultStrategyParameters ;;;
  match status_EndpointPublishingStrategy (Status ic) with
  | None =>
      ret (set_Status ic
             (set_status_EndpointPublishingStrategy (Status ic) (Some effectiveStrategy)),
           true)
  | Some _ => ret (ic, false)
  end.

(** The listed items are kept as received: [validate] reads their names,
    UIDs, domains and conditions and follows none of their pointers. *)
Definition validate (ic : IngressController) : M X (option error) :=
  let errors : list error := [] in
  listed <~ call (OpListIngressControllers (cfg_Namespace config))
                 (cache_List_IngressControllers r (cfg_Namespace config)) ;;
  match listed with
  | inl err => ret (Some (Errorf "failed to list ingresscontrollers" err))
  | inr Items =>
      let errors := append_error errors (validateDomain ic) in
      let errors := append_error errors (validateDomainUniqueness ic Items) in
      match NewAggregate errors with
      | Some err => ret (Some (admissionRejection (Error err)))
      | None => ret None
      end
  end.

(** The method [admit] of the reconciler.  It works on [updated], a deep
    copy of [current]; [current] is only read. *)
Definition reconciler_admit (current : IngressController) (ingressConfig : IngressConfig)
    (infraConfig : Infrastructure) : M X (option error) :=
  updated <~ DeepCopy current ;;
  let updated := fst (setDefaultDomain updated ingressConfig) in
  defaulted <~ setDefaultPublishingStrategy updated infraConfig ;;
  let updated := fst defaulted in
  verr <~ validate updated ;;
  match verr with
  | Some (admissionRejection Reason as err) =>
      let updated :=
        set_Status updated
          (set_status_Conditions (Status updated)
             (mergeConditions r (status_Conditions (Status updated))
                {| cond_Type := IngressControllerAdmittedConditionType;
                   cond_Status := ConditionFalse;
                   cond_Reason := "Invalid";
                   cond_Message := Reason |})) in
      h <~ get_heap ;;
      if negb (ingressStatusesEqual r (resolve_status h (Status current))
                                      (resolve_status h (Status updated)))
      then
        uerr <~ call (OpStatusUpdate (resolve h updated))
                     (client_Status_Update r (resolve h updated)) ;;
        match uerr with
        | Some uerr => ret (Some (Errorf "failed to update status" uerr))
        | None => ret (Some err)
        end
      else ret (Some err)
  | Some err => ret (Some err)
  | None =>
      let updated :=
        set_Status updated
          (set_status_Conditions (Status updated)
             (mergeConditions r (status_Conditions (Status updated))
                {| cond_Type := IngressControllerAdmittedConditionType;
                   cond_Status := ConditionTrue;
                   cond_Reason := "Valid";
                   cond_Message := "" |})) in
      h <~ get_heap ;;
      if negb (ingressStatusesEqual r (resolve_status h (Status current))
                                      (resolve_status h (Status updated)))
      then
        uerr <~ call (OpStatusUpdate (resolve h updated))
                     (client_Status_Update r (resolve h updated)) ;;
        match uerr with
        | Some uerr => ret (Some (Errorf "failed to update status" uerr))
        | None => ret None
        end
      else ret None
  end.

(** [fmt.Errorf(prefix + ": %v", err)] under [if err != nil]. *)
Definition wrap (prefix : string) (err : option error) : option error :=
  Errorf prefix <$> err.

(** The collaborators are handed the object as it stands in memory when
    they are called. *)
Definition ensureIngressDeleted (ingress : IngressController) : M X (option error) :=
  let errs : list error := [] in
  h <~ get_heap ;;
  let obj := resolve h ingress in
  (* from [ensureRouterDeleted] to the end of the function *)
  let teardown (errs : list error) : M X (option error) :=
    err <~ call OpEnsureRouterDeleted (ensureRouterDeleted r obj) ;;
    let errs := append_error errs
      (wrap ("failed to delete deployment for ingress " +:+ Name ingress) err) in
    errs <~
      (if bool_decide (length errs = 0) then
         if slice_ContainsString r (Finalizers ingress) IngressControllerFinalizer then
           updated <~ DeepCopy ingress ;;
           let updated := set_Finalizers updated
             (slice_RemoveString r (Finalizers updated) IngressControllerFinalizer) in
           h <~ get_heap ;;
           err <~ call (OpUpdate (resolve h updated)) (client_Update r (resolve h updated)) ;;
           ret (append_error errs
                  (wrap ("failed to remove finalizer from ingresscontroller "
                         +:+ Name ingress) err))
         else ret errs
       else ret errs) ;;
    ret (NewAggregate errs) in
  err <~ call OpFinalizeLoadBalancerService (finalizeLoadBalancerService r obj) ;;
  let errs := append_error errs
    (wrap ("failed to finalize load balancer service for "
           +:+ Namespace ingress +:+ "/" +:+ Name ingress) err) in
  err <~ call OpDeleteWildcardDNSRecord (deleteWildcardDNSRecord r obj) ;;
  let errs := append_error errs (wrap "failed to delete wildcard dnsrecord" err) in
  current <~ call OpCurrentWildcardDNSRecord (currentWildcardDNSRecord r obj) ;;
  match current with
  | (_, Some err) =>
      teardown (errs ++ [Errorf "failed to get current wildcard dnsrecord" err])
  | (Some record, None) => ret None
  | (None, None) => teardown errs
  end.

(** [ensureIngressController] from the declaration of [errs] to its end:
    what it does once the deployment is there.  Every step appends its
    error, if any, and the next step runs all the same. *)
Definition ensureIngressController_with_deployment (ci : IngressController)
    (deployment : Deployment) (dnsConfig : DNSConfig)
    (infraConfig : Infrastructure) (ingressConfig : IngressConfig) : M X (option error) :=
  h <~ get_heap ;;
  let obj := resolve h ci in
  let errs : list error := [] in
  let trueVar := true in
  let deploymentRef :=
    {| ref_APIVersion := "apps/v1"; ref_Kind := "Deployment";
       ref_Name := deploy_Name deployment; ref_UID := deploy_UID deployment;
       ref_Controller := Some trueVar |} in
  lb <~ call OpEnsureLoadBalancerService
          (ensureLoadBalancerService r obj deploymentRef infraConfig) ;;
  published <~
    match lb with
    | (_, Some err) =>
        ret (None, None,
             errs ++ [Errorf ("failed to ensure load balancer service for " +:+ Name ci) err])
    | (lb, None) =>
        let lbService := lb in
        record <~ call OpEnsureWildcardDNSRecord (ensureWildcardDNSRecord r obj lbService) ;;
        match record with
        | (_, Some err) =>
            ret (lbService, None,
                 errs ++ [Errorf ("failed to ensure wildcard dnsrecord for " +:+ Name ci) err])
        | (record, None) => ret (lbService, record, errs)
        end
    end ;;
  let '(lbService, wildcardRecord, errs) := published in
  internal <~ call OpEnsureInternalIngressControllerService
                (ensureInternalIngressControllerService r obj deploymentRef) ;;
  errs <~
    match internal with
    | (_, Some err) =>
        ret (errs ++ [Errorf ("failed to create internal router service for ingresscontroller "
                              +:+ Name ci) err])
    | (internalSvc, None) =>
        err <~ call OpEnsureMetricsIntegration
                 (ensureMetricsIntegration r obj internalSvc deploymentRef) ;;
        ret (append_error errs
               (wrap ("failed to integrate metrics with openshift-monitoring for ingresscontroller "
                      +:+ Name ci) err))
    end ;;
  err <~ call OpEnsureRsyslogConfigMap
           (ensureRsyslogConfigMap r obj deploymentRef ingressConfig) ;;
  let errs := append_error errs err in
  err <~ call OpEnsureRouterPodDisruptionBudget
           (ensureRouterPodDisruptionBudget r obj deploymentRef) ;;
  let errs := append_error errs err in
  operandEvents <~ call (OpListEvents "openshift-ingress")
                     (cache_List_Events r "openshift-ingress") ;;
  let errs := append_error errs
    (wrap ("failed to list events in namespace " +:+ fmt_q r "openshift-ingress")
          (snd operandEvents)) in
  err <~ call OpSyncIngressControllerStatus
           (syncIngressControllerStatus r obj deployment lbService (fst operandEvents)
              wildcardRecord dnsConfig) ;;
  let errs := append_error errs (wrap "failed to sync ingresscontroller status" err) in
  ret (NewAggregate errs).

Definition ensureIngressController (ci : IngressController) (dnsConfig : DNSConfig)
    (infraConfig : Infrastructure) (ingressConfig : IngressConfig) : M X (option error) :=
  (* from [ensureRouterNamespace] on, for the record [ci] then stands for *)
  let ensure (ci : IngressController) : M X (option error) :=
    h <~ get_heap ;;
    let obj := resolve h ci in
    err <~ call OpEnsureRouterNamespace (ensureRouterNamespace r) ;;
    match err with
    | Some err => ret (Some (Errorf "failed to ensure namespace" err))
    | None =>
        ensured <~ call OpEnsureRouterDeployment
                     (ensureRouterDeployment r obj infraConfig ingressConfig) ;;
        match ensured with
        | inl err => ret (Some (Errorf "failed to ensure deployment" err))
        | inr deployment =>
            ensureIngressController_with_deployment ci deployment
              dnsConfig infraConfig ingressConfig
        end
    end in
  if negb (slice_ContainsString r (Finalizers ci) IngressControllerFinalizer) then
    updated <~ DeepCopy ci ;;
    let updated := set_Finalizers updated (Finalizers updated ++ [IngressControllerFinalizer]) in
    h <~ get_heap ;;
    err <~ call (OpUpdate (resolve h updated)) (client_Update r (resolve h updated)) ;;
    match err with
    | Some err => ret (Some (Errorf "failed to update finalizers" err))
    | None =>
        let key := {| nn_Namespace := Namespace updated; nn_Name := Name updated |} in
        got <~ call (OpGetIngressController key) (client_Get_IngressController r key) ;;
        match got with
        | inl err => ret (Some (Errorf "failed to get ingresscontroller" err))
        | inr obj =>
            updated <~ decode obj ;;
            let ci := updated in
            ensure ci
        end
    end
  else ensure ci.

Definition Reconcile (request : Request) : M X (Result * option error) :=
  got <~ call (OpGetIngressController (req_NamespacedName request))
              (client_Get_IngressController r (req_NamespacedName request)) ;;
  match got with
  | inl err =>
      if IsNotFound err then ret ({| Requeue := false |}, None)
      else ret ({| Requeue := false |},
                Some (Errorf ("failed to get ingresscontroller "
                              +:+ fmt_q r (Request_String request)) err))
  | inr obj =>
  ingress <~ decode obj ;;
  match DeletionTimestamp ingress with
  | Some _ =>
      err <~ ensureIngressDeleted ingress ;;
      match err with
      | Some err =>
          ret ({| Requeue := false |}, Some (Errorf "failed to ensure ingress deletion" err))
      | None => ret ({| Requeue := false |}, None)
      end
  | None =>
  got <~ call (OpGetDNS "cluster") (client_Get_DNS r "cluster") ;;
  match got with
  | inl err => ret ({| Requeue := false |}, Some (Errorf "failed to get dns 'cluster'" err))
  | inr dnsConfig =>
  got <~ call (OpGetInfrastructure "cluster") (client_Get_Infrastructure r "cluster") ;;
  match got with
  | inl err =>
      ret ({| Requeue := false |}, Some (Errorf "failed to get infrastructure 'cluster'" err))
  | inr infraConfig =>
  got <~ call (OpGetIngress "cluster") (client_Get_Ingress r "cluster") ;;
  match got with
  | inl err => ret ({| Requeue := false |}, Some (Errorf "failed to get ingress 'cluster'" err))
  | inr ingressConfig =>
  if negb (isAdmitted ingress) then
    err <~ reconciler_admit ingress ingressConfig infraConfig ;;
    match err with
    | Some (admissionRejection Reason) =>
        emit (OpEvent (Name ingress) "Warning" "Rejected" Reason) ;;;
        ret ({| Requeue := false |}, None)
    | Some err =>
        ret ({| Requeue := false |}, Some (Errorf "failed to admit ingresscontroller" err))
    | None =>
        emit (OpEvent (Name ingress) "Normal" "Admitted" "ingresscontroller passed validation") ;;;
        ret ({| Requeue := true |}, None)
    end
  else
    err <~ ensureIngressController ingress dnsConfig infraConfig ingressConfig ;;
    match err with
    | Some err =>
        ret ({| Requeue := false |}, Some (Errorf "failed to ensure ingresscontroller" err))
    | None => ret ({| Requeue := false |}, None)
    end
  end end end end end.

End reconciler.
Arguments setDefaultPublishingStrategy {X} _ _.
Arguments validate {X} _ _ _.
Arguments reconciler_admit {X} _ _ _ _ _.
Arguments ensureIngressDeleted {X} _ _.
Arguments ensureIngressController_with_deployment {X} _ _ _ _ _ _.
Arguments ensureIngressController {X} _ _ _ _ _.
Arguments Reconcile {X} _ _ _.

(** ** A cluster to run the reconciler against *)

Global Instance LoadBalancerStrategy_eq_dec : EqDecision LoadBalancerStrategy.
Proof. solve_decision. Defined.
Global Instance EndpointPublishingStrategy_eq_dec : EqDecision EndpointPublishingStrategy.
Proof. solve_decision. Defined.
Global Instance OperatorCondition_eq_dec : EqDecision OperatorCondition.
Proof. solve_decision. Defined.
Global Instance IngressControllerStatus_eq_dec `{EqDecision P} :
  EqDecision (IngressControllerStatus P).
Proof. solve_decision. Defined.

Module Fake.

(** Modelled from the spec: [mergeConditions] is defined in the package's
    status file.  A condition of the same type is overwritten in place
    (type, status, reason, message), the others are preserved, and a
    condition of a new type is added. *)
Fixpoint merge_conditions (conditions : list OperatorCondition)
    (update : OperatorCondition) : list OperatorCondition :=
  match conditions with
  | [] => [update]
  | cond :: rest =>
      if bool_decide (cond_Type cond = cond_Type update)
      then update :: rest
      else cond :: merge_conditions rest update
  end.

(** Modelled from the spec: [ingressStatusesEqual] is defined in the
    package's status file; the status is persisted only if it actually
    changed. *)
Definition statuses_equal
    (a b : IngressControllerStatus EndpointPublishingStrategy) : bool :=
  bool_decide (a = b).

(** Stand-ins for [pkg/util/slice]. *)
Definition ContainsString (l : list string) (s : string) : bool :=
  bool_decide (s ∈ l).
Definition RemoveString (l : list string) (s : string) : list string :=
  filter (λ x, x ≠ s) l.

(** A small cluster: the stored ingresscontrollers, the cluster
    configuration, the number of reads for which the wildcard DNS record
    is still there, and switches that make a collaborator fail. *)
Record Cluster := {
  stored : list IngressControllerObject;
  platform : string;
  default_domain : string;
  dns_latency : nat;
  fail_list : bool;
  fail_finalize_lb : bool;
  fail_deployment : bool;
  fail_lb : bool
}.

Definition put (obj : IngressControllerObject) (x : Cluster) : Cluster :=
  {| stored := obj :: filter (λ o, Name o ≠ Name obj) (stored x);
     platform := platform x; default_domain := default_domain x;
     dns_latency := dns_latency x; fail_list := fail_list x;
     fail_finalize_lb := fail_finalize_lb x;
     fail_deployment := fail_deployment x; fail_lb := fail_lb x |}.

Definition tick (x : Cluster) : Cluster :=
  {| stored := stored x;
     platform := platform x; default_domain := default_domain x;
     dns_latency := pred (dns_latency x); fail_list := fail_list x;
     fail_finalize_lb := fail_finalize_lb x;
     fail_deployment := fail_deployment x; fail_lb := fail_lb x |}.

Definition get (key : NamespacedName) (x : Cluster)
    : (error + IngressControllerObject) * Cluster :=
  match filter (λ o, Name o = nn_Name key) (stored x) with
  | o :: _ => (inr o, x)
  | [] => (inl (StatusError StatusReasonNotFound "ingresscontroller not found"), x)
  end.

Definition ok {A} (x : A) : option error * A := (None, x).
Definition fails_if {A} (b : bool) (msg : string) (x : A) : option error * A :=
  (if b then Some (ErrorString msg) else None, x).

Definition collaborators : Collaborators Cluster := {|
  client_Get_IngressController := get;
  client_Get_DNS := λ _ x, (inr {| dns_BaseDomain := "example.com" |}, x);
  client_Get_Infrastructure := λ _ x, (inr {| infra_Platform := platform x |}, x);
  client_Get_Ingress := λ _ x, (inr {| ingresscfg_Domain := default_domain x |}, x);
  client_Update := λ obj x, (None, put obj x);
  client_Status_Update := λ obj x, (None, put obj x);
  cache_List_IngressControllers := λ _ x,
    (if fail_list x then inl (ErrorString "cache not started") else inr (stored x), x);
  cache_List_Events := λ _ x, (([] : list Event, None), x);
  finalizeLoadBalancerService := λ _ x,
    fails_if (fail_finalize_lb x) "load balancer still in use" x;
  deleteWildcardDNSRecord := λ _, ok;
  currentWildcardDNSRecord := λ obj x,
    (match dns_latency x with
     | O => (None, None)
     | S _ => (Some {| dnsrecord_Name := Name obj +:+ "-wildcard" |}, None)
     end, tick x);
  ensureRouterDeleted := λ _, ok;
  ensureRouterNamespace := ok;
  ensureRouterDeployment := λ obj _ _ x,
    (if fail_deployment x then inl (ErrorString "quota exceeded")
     else inr {| deploy_Name := "router-" +:+ Name obj; deploy_UID := "d-1" |}, x);
  ensureLoadBalancerService := λ obj _ _ x,
    (if fail_lb x then (None, Some (ErrorString "no load balancer available"))
     else (Some {| svc_Name := "router-" +:+ Name obj |}, None), x);
  ensureWildcardDNSRecord := λ obj _ x,
    ((Some {| dnsrecord_Name := Name obj +:+ "-wildcard" |}, None), x);
  ensureInternalIngressControllerService := λ obj _ x,
    ((Some {| svc_Name := "router-internal-" +:+ Name obj |}, None), x);
  ensureMetricsIntegration := λ _ _ _, ok;
  ensureRsyslogConfigMap := λ _ _ _, ok;
  ensureRouterPodDisruptionBudget := λ _ _, ok;
  syncIngressControllerStatus := λ _ _ _ _ _ _, ok;
  mergeConditions := merge_conditions;
  ingressStatusesEqual := statuses_equal;
  slice_ContainsString := ContainsString;
  slice_RemoveString := RemoveString;
  fmt_q := λ s, s
|}.

Definition config : Config :=
  {| cfg_Namespace := "openshift-ingress-operator";
     cfg_IngressControllerImage := "router:latest" |}.

Definition cluster0 : Cluster :=
  {| stored := []; platform := AWSPlatformType; default_domain := "apps.example.com";
     dns_latency := 0; fail_list := false; fail_finalize_lb := false;
     fail_deployment := false; fail_lb := false |}.

(** A new ingresscontroller named [name] asking for [domain]. *)
Definition new_ic {P} (name uid domain : string) : IngressControllerOf P :=
  {| Name := name; Namespace := "openshift-ingress-operator"; UID := uid;
     DeletionTimestamp := None; Finalizers := [];
     Spec := {| spec_Domain := domain; spec_Replicas := None;
                spec_EndpointPublishingStrategy := None |};
     Status := {| status_AvailableReplicas := 0; status_Selector := "";
                  status_Domain := ""; status_EndpointPublishingStrategy := None;
                  status_Conditions := [] |} |}.

Definition start (x : Cluster) : State Cluster := {| heap := ∅; cluster := x |}.

(** [x] with the given latency of the DNS record and the given faults. *)
Definition faulty (x : Cluster) (latency : nat)
    (list finalize_lb deployment : bool) : Cluster :=
  {| stored := stored x; platform := platform x; default_domain := default_domain x;
     dns_latency := latency; fail_list := list; fail_finalize_lb := finalize_lb;
     fail_deployment := deployment; fail_lb := fail_lb x |}.

Definition admitted : OperatorCondition :=
  {| cond_Type := IngressControllerAdmittedConditionType; cond_Status := ConditionTrue;
     cond_Reason := "Valid"; cond_Message := "" |}.

(** The admitted ingresscontroller [default], holding [apps.example.com];
    [deleted] says whether it is marked for deletion. *)
Definition default_ic {P} (deleted : bool) : IngressControllerOf P :=
  {| Name := "default"; Namespace := "openshift-ingress-operator"; UID := "u1";
     DeletionTimestamp := if deleted then Some 1%Z else None;
     Finalizers := [IngressControllerFinalizer];
     Spec := {| spec_Domain := ""; spec_Replicas := None;
                spec_EndpointPublishingStrategy := None |};
     Status := {| status_AvailableReplicas := 0; status_Selector := "";
                  status_Domain := "apps.example.com";
                  status_EndpointPublishingStrategy := None;
                  status_Conditions := [admitted] |} |}.

(** A second ingresscontroller asking for the domain [default] holds. *)
Definition second_ic {P} : IngressControllerOf P :=
  new_ic "second" "u2" "apps.example.com".

(** [second_ic] as [validate] sees it, with its status domain defaulted. *)
Definition second_ic_defaulted : IngressController :=
  (setDefaultDomain second_ic {| ingresscfg_Domain := "apps.example.com" |}).1.

(** [default], not yet admitted again, after its spec was edited to ask for
    another domain. *)
Definition edited_ic : IngressController :=
  {| Name := "default"; Namespace := "openshift-ingress-operator"; UID := "u1";
     DeletionTimestamp := None; Finalizers := [IngressControllerFinalizer];
     Spec := {| spec_Domain := "other.example.com"; spec_Replicas := None;
                spec_EndpointPublishingStrategy := None |};
     Status := {| status_AvailableReplicas := 0; status_Selector := "";
                  status_Domain := "apps.example.com";
                  status_EndpointPublishingStrategy := None;
                  status_Conditions := [] |} |}.

(** An ingresscontroller whose spec names a load-balancer strategy without
    parameters, stored at location [1]. *)
Definition explicit_ic : IngressController :=
  {| Name := "explicit"; Namespace := "openshift-ingress-operator"; UID := "u3";
     DeletionTimestamp := None; Finalizers := [];
     Spec := {| spec_Domain := "lb.example.com"; spec_Replicas := Some 2%Z;
                spec_EndpointPublishingStrategy := Some 1%positive |};
     Status := {| status_AvailableReplicas := 0; status_Selector := "";
                  status_Domain := ""; status_EndpointPublishingStrategy := None;
                  status_Conditions := [] |} |}.

Definition explicit_state : State Cluster :=
  {| heap := {[ 1%positive := {| eps_Type := LoadBalancerServiceStrategyType;
                                 eps_LoadBalancer := None |} ]};
     cluster := cluster0 |}.

Definition cluster_with_default : Cluster := put (default_ic false) cluster0.

Definition request (name : string) : Request :=
  {| req_NamespacedName :=
       {| nn_Namespace := "openshift-ingress-operator"; nn_Name := name |} |}.

(** [x] without a load balancer to be had. *)
Definition without_load_balancer (x : Cluster) : Cluster :=
  {| stored := stored x; platform := platform x; default_domain := default_domain x;
     dns_latency := dns_latency x; fail_list := fail_list x;
     fail_finalize_lb := fail_finalize_lb x;
     fail_deployment := fail_deployment x; fail_lb := true |}.

(** The cluster in which [default] is marked for deletion. *)
Definition cluster_with_deleted : Cluster := put (default_ic true) cluster0.

End Fake.

(** ** Vocabulary of the properties *)

(** [other] stands in the way of [desired]: it is admitted, it is another
    record (by UID), and it holds the same domain. *)
Definition conflicts {P Q} (desired : IngressControllerOf P)
    (other : IngressControllerOf Q) : Prop :=
  isAdmitted other = true ∧ UID desired ≠ UID other ∧
  status_Domain (Status desired) = status_Domain (Status other).

(** [ic], living in [h'], is a copy of [obj] that shares nothing with the
    objects of [h]. *)
Definition fresh_copy (h : gmap loc EndpointPublishingStrategy)
    (obj : IngressControllerObject) (ic : IngressController)
    (h' : gmap loc EndpointPublishingStrategy) : Prop :=
  h ⊆ h' ∧ resolve h' ic = obj ∧
  (∀ l, spec_EndpointPublishingStrategy (Spec ic) = Some l → h !! l = None) ∧
  (∀ l, status_EndpointPublishingStrategy (Status ic) = Some l → h !! l = None).

(** The condition [admit] merges into the status for a verdict. *)
Definition admitted_condition (verdict : option error) : OperatorCondition :=
  match verdict with
  | Some err =>
      {| cond_Type := IngressControllerAdmittedConditionType;
         cond_Status := ConditionFalse; cond_Reason := "Invalid";
         cond_Message := Error err |}
  | None =>
      {| cond_Type := IngressControllerAdmittedConditionType;
         cond_Status := ConditionTrue; cond_Reason := "Valid";
         cond_Message := "" |}
  end.

(** What the two validation checks find in [computed] against [Items]. *)
Definition verdict_on {P Q} (computed : IngressControllerOf P)
    (Items : list (IngressControllerOf Q)) : option error :=
  NewAggregate
    (append_error (append_error [] (validateDomain computed))
                  (validateDomainUniqueness computed Items)).

Definition rejection (verdict : option error) : option error :=
  admissionRejection ∘ Error <$> verdict.

(** The operations [admit] may perform. *)
Definition admission_op (op : Op) : Prop :=
  match op with
  | OpListIngressControllers _ _ | OpStatusUpdate _ _ => True
  | _ => False
  end.

(** The errors [ensureIngressDeleted] has collected after its four steps. *)
Definition deletion_errors (ingress : IngressController)
    (e1 e2 e3 e4 : option error) : list error :=
  append_error
    (append_error
       (append_error
          (append_error []
             (wrap ("failed to finalize load balancer service for "
                    +:+ Namespace ingress +:+ "/" +:+ Name ingress) e1))
          (wrap "failed to delete wildcard dnsrecord" e2))
       (wrap "failed to get current wildcard dnsrecord" e3))
    (wrap ("failed to delete deployment for ingress " +:+ Name ingress) e4).

(** The steps of [ensureIngressController] that come after the deployment. *)
Definition after_deployment (op : Op) : Prop :=
  match op with
  | OpEnsureLoadBalancerService _ | OpEnsureWildcardDNSRecord _
  | OpEnsureInternalIngressControllerService _ | OpEnsureMetricsIntegration _
  | OpEnsureRsyslogConfigMap _ | OpEnsureRouterPodDisruptionBudget _
  | OpListEvents _ _ | OpSyncIngressControllerStatus _ => True
  | _ => False
  end.

(** The independent branches of the convergence all appear in a log. *)
Definition attempts_remaining_branches (ops : list Op) : Prop :=
  (∃ got, OpEnsureLoadBalancerService got ∈ ops) ∧
  (∃ got, OpEnsureInternalIngressControllerService got ∈ ops) ∧
  (∃ err, OpEnsureRsyslogConfigMap err ∈ ops) ∧
  (∃ err, OpEnsureRouterPodDisruptionBudget err ∈ ops) ∧
  (∃ err, OpSyncIngressControllerStatus err ∈ ops).

(** A pass of [Reconcile] gets as far as admission: the record is there
    and is not being deleted, the three cluster configurations are read,
    and the record is not admitted yet.  [s1] is the state and [pre] the
    log at that point. *)
Definition reaches_admission {X} (r : Collaborators X) (request : Request)
    (s : State X) (ingress : IngressController) (ingressConfig : IngressConfig)
    (infraConfig : Infrastructure) (s1 : State X) (pre : list Op) : Prop :=
  ∃ obj x0 sd dnsConfig x1 x2 x3,
    client_Get_IngressController r (req_NamespacedName request) (cluster s) = (inr obj, x0) ∧
    decode obj {| heap := heap s; cluster := x0 |} = (ingress, sd, []) ∧
    DeletionTimestamp ingress = None ∧
    client_Get_DNS r "cluster" x0 = (inr dnsConfig, x1) ∧
    client_Get_Infrastructure r "cluster" x1 = (inr infraConfig, x2) ∧
    client_Get_Ingress r "cluster" x2 = (inr ingressConfig, x3) ∧
    isAdmitted ingress = false ∧
    s1 = {| heap := heap sd; cluster := x3 |} ∧
    pre = [OpGetIngressController (req_NamespacedName request) (inr obj);
           OpGetDNS "cluster" (inr dnsConfig);
           OpGetInfrastructure "cluster" (inr infraConfig);
           OpGetIngress "cluster" (inr ingressConfig)].

(** The mapping function of [enqueueRequestForOwningIngressController],
    applied to the labels of the watched object.  The label key
    [manifests.OwningIngressControllerLabel] is declared in [pkg/manifests]
    and is taken as a parameter. *)
Definition enqueueRequestForOwningIngressController
    (OwningIngressControllerLabel : string) (namespace : string)
    (labels : gmap string string) : list Request :=
  match labels !! OwningIngressControllerLabel with
  | Some ingressName =>
      [{| req_NamespacedName :=
            {| nn_Namespace := namespace; nn_Name := ingressName |} |}]
  | None => []
  end.

(** [conflicts], as a test. *)
Definition conflictsb {P Q} (desired : IngressControllerOf P)
    (other : IngressControllerOf Q) : bool :=
  isAdmitted other
  && bool_decide (UID desired ≠ UID other)
  && bool_decide (status_Domain (Status desired) = status_Domain (Status other)).

(** The error a logged call returned, if any. *)
Definition op_error (op : Op) : option error :=
  match op with
  | OpGetIngressController _ (inl err) | OpGetDNS _ (inl err)
  | OpGetInfrastructure _ (inl err) | OpGetIngress _ (inl err)
  | OpListIngressControllers _ (inl err) | OpEnsureRouterDeployment (inl err) => Some err
  | OpUpdate _ err | OpStatusUpdate _ err
  | OpFinalizeLoadBalancerService err | OpDeleteWildcardDNSRecord err
  | OpEnsureRouterDeleted err | OpEnsureRouterNamespace err
  | OpEnsureMetricsIntegration err | OpEnsureRsyslogConfigMap err
  | OpEnsureRouterPodDisruptionBudget err | OpSyncIngressControllerStatus err => err
  | OpListEvents _ (_, err) | OpCurrentWildcardDNSRecord (_, err)
  | OpEnsureLoadBalancerService (_, err) | OpEnsureWildcardDNSRecord (_, err)
  | OpEnsureInternalIngressControllerService (_, err) => err
  | _ => None
  end.

(** The error [ensureIngressController] collects for a step that comes
    after the deployment: the step's error under the step's message, for
    the record named [name]; [q] is the quoting of [%q]. *)
Definition convergence_error (q : string → string) (name : string)
    (op : Op) : option error :=
  match op with
  | OpEnsureLoadBalancerService (_, err) =>
      wrap ("failed to ensure load balancer service for " +:+ name) err
  | OpEnsureWildcardDNSRecord (_, err) =>
      wrap ("failed to ensure wildcard dnsrecord for " +:+ name) err
  | OpEnsureInternalIngressControllerService (_, err) =>
      wrap ("failed to create internal router service for ingresscontroller " +:+ name) err
  | OpEnsureMetricsIntegration err =>
      wrap ("failed to integrate metrics with openshift-monitoring for ingresscontroller "
            +:+ name) err
  | OpEnsureRsyslogConfigMap err => err
  | OpEnsureRouterPodDisruptionBudget err => err
  | OpListEvents _ (_, err) =>
      wrap ("failed to list events in namespace " +:+ q "openshift-ingress") err
  | OpSyncIngressControllerStatus err =>
      wrap "failed to sync ingresscontroller status" err
  | _ => None
  end.

(** The calls a deletion pass may make. *)
Definition deletion_op (op : Op) : Prop :=
  match op with
  | OpFinalizeLoadBalancerService _ | OpDeleteWildcardDNSRecord _
  | OpCurrentWildcardDNSRecord _ | OpEnsureRouterDeleted _ | OpUpdate _ _ => True
  | _ => False
  end.

(** The calls a convergence pass may make. *)
Definition convergence_op (op : Op) : Prop :=
  match op with
  | OpUpdate _ _ | OpGetIngressController _ _ | OpEnsureRouterNamespace _
  | OpEnsureRouterDeployment _ => True
  | op => after_deployment op
  end.

Definition is_event (op : Op) : bool :=
  match op with OpEvent _ _ _ _ => true | _ => false end.

(** The steps of [ensureIngressController] that come before the deployment. *)
Definition before_deployment (op : Op) : Prop :=
  match op with
  | OpUpdate _ _ | OpGetIngressController _ _ | OpEnsureRouterNamespace _ => True
  | _ => False
  end.

(** The reads of the cluster configuration. *)
Definition config_read (op : Op) : Prop :=
  match op with
  | OpGetDNS _ _ | OpGetInfrastructure _ _ | OpGetIngress _ _ => True
  | _ => False
  end.

(** Membership of an operation in an explicit log, case by case. *)
Ltac elem_of_ops H :=
  repeat first
    [ apply elem_of_nil in H; contradiction
    | apply elem_of_app in H as [H|H]
    | apply elem_of_cons in H as [H|H]; [try discriminate H|] ].

Set Warnings "-clear-no-such-hyp".


(** * Properties *)

Lemma length_zero_iff_empty (s : string) : String.length s = 0 ↔ s = "".
Proof. destruct s; simpl; split; intros H; try done. Qed.

Lemma append_cons c (s t : string) : String c s +:+ t = String c (s +:+ t).
Proof. reflexivity. Qed.

Lemma append_empty_r (s : string) : s +:+ "" = s.
Proof. induction s as [|c s IH]; [done | by rewrite append_cons, IH]. Qed.

Lemma substring_of_suffix (pre s : string) : substring_of s (pre +:+ s).
Proof. exists pre, "". by rewrite append_empty_r. Qed.

Lemma append_assoc (a b c : string) : (a +:+ b) +:+ c = a +:+ (b +:+ c).
Proof. induction a as [|x a IH]; [done | by rewrite !append_cons, IH]. Qed.

Lemma substring_of_app_l (s t post : string) :
  substring_of s t → substring_of s (t +:+ post).
Proof.
  intros (p & q & ->). exists p, (q +:+ post).
  by rewrite !append_assoc.
Qed.

Lemma substring_of_app_r (s t pre : string) :
  substring_of s t → substring_of s (pre +:+ t).
Proof.
  intros (p & q & ->). exists (pre +:+ p), q.
  by rewrite !append_assoc.
Qed.

Lemma validateDomainUniqueness_Some {P Q} (desired : IngressControllerOf P)
    (existing : list (IngressControllerOf Q)) err :
  validateDomainUniqueness desired existing = Some err →
  ∃ other, other ∈ existing ∧ conflicts desired other ∧
           err = ErrorString ("conflicts with: " +:+ Name other).
Proof.
  induction existing as [|current rest IH]; simpl; [done|].
  destruct (isAdmitted current) eqn:Hadm; simpl.
  - destruct (bool_decide (UID desired ≠ UID current)) eqn:Huid; simpl.
    + destruct (bool_decide (status_Domain (Status desired) = status_Domain (Status current))) eqn:Hdom.
      * intros [= <-]. exists current.
        apply bool_decide_eq_true in Huid, Hdom.
        split; [left | done].
      * intros (o & ? & ?)%IH. exists o. split; [by right | done].
    + intros (o & ? & ?)%IH. exists o. split; [by right | done].
  - intros (o & ? & ?)%IH. exists o. split; [by right | done].
Qed.

Lemma validateDomainUniqueness_None {P Q} (desired : IngressControllerOf P)
    (existing : list (IngressControllerOf Q)) :
  validateDomainUniqueness desired existing = None →
  ∀ other, other ∈ existing → ¬ conflicts desired other.
Proof.
  induction existing as [|current rest IH]; simpl.
  - intros _ o Ho. by apply elem_of_nil in Ho.
  - intros Hv o [-> | Ho]%elem_of_cons (Hadm & Huid & Hdom).
    + rewrite Hadm in Hv. simpl in Hv.
      rewrite (bool_decide_eq_true_2 _ Huid), (bool_decide_eq_true_2 _ Hdom) in Hv.
      done.
    + destruct (negb (isAdmitted current)); [by eapply IH|].
      destruct (_ && _); [done | by eapply IH].
Qed.

Section admission_pipeline.
Context {X : Type} (r : Collaborators X) (config : Config).

(** C4.  With the listing of sibling records at hand, [validate] rejects
    [ic] exactly when its status domain is empty or is the status domain of
    an admitted record of the listing with another UID, and it has no other
    outcome than acceptance or rejection; on a conflict the reason of the
    rejection contains the name of a conflicting record; and when both
    checks fail the single rejection reports both, the domain check first. *)
Theorem validate_rejects_exactly (ic : IngressController) (s : State X) Items x' :
  cache_List_IngressControllers r (cfg_Namespace config) (cluster s) = (inr Items, x') →
  let verdict := (validate r config ic s).1.1 in
  ((∃ Reason, verdict = Some (admissionRejection Reason)) ↔
     (status_Domain (Status ic) = "" ∨ ∃ other, other ∈ Items ∧ conflicts ic other)) ∧
  (verdict = None ∨ ∃ Reason, verdict = Some (admissionRejection Reason)) ∧
  ((∃ other, other ∈ Items ∧ conflicts ic other) →
     ∃ other Reason, other ∈ Items ∧ conflicts ic other ∧
       verdict = Some (admissionRejection Reason) ∧ substring_of (Name other) Reason) ∧
  (status_Domain (Status ic) = "" → (∃ other, other ∈ Items ∧ conflicts ic other) →
     ∃ other, other ∈ Items ∧ conflicts ic other ∧
       verdict = Some (admissionRejection
         ("[domain is required, conflicts with: " +:+ Name other +:+ "]"))).
Proof.
  intros Hlist verdict. subst verdict.
  unfold validate, bind, call. rewrite Hlist. simpl.
  unfold validateDomain.
  destruct (validateDomainUniqueness ic Items) as [uerr|] eqn:Huniq.
  - apply validateDomainUniqueness_Some in Huniq as (other & Hin & Hconf & ->).
    case_bool_decide as Hlen; simpl.
    + apply length_zero_iff_empty in Hlen.
      split; [|split; [|split]].
      * split; eauto.
      * right. eauto.
      * intros _. exists other. eexists. split_and!; [done..|].
        apply substring_of_app_r, substring_of_app_r, substring_of_app_l.
        apply substring_of_app_r, substring_of_suffix.
      * intros _ _. exists other. by split_and!.
    + split; [|split; [|split]].
      * split; eauto.
      * right. eauto.
      * intros _. exists other. eexists. split_and!; [done..|].
        apply substring_of_suffix.
      * intros Hempty. by rewrite Hempty in Hlen.
  - pose proof (validateDomainUniqueness_None _ _ Huniq) as Hnone.
    case_bool_decide as Hlen; simpl.
    + apply length_zero_iff_empty in Hlen.
      split; [|split; [|split]].
      * split; eauto.
      * right. eauto.
      * intros (o & ? & ?). by destruct (Hnone o).
      * intros _ (o & ? & ?). by destruct (Hnone o).
    + split; [|split; [|split]].
      * split; [by intros [? ?]|].
        intros [Hempty | (o & ? & ?)]; [by rewrite Hempty in Hlen | by destruct (Hnone o)].
      * by left.
      * intros (o & ? & ?). by destruct (Hnone o).
      * intros Hempty. by rewrite Hempty in Hlen.
Qed.

(** Once the status has a domain, [setDefaultDomain] changes nothing. *)
Lemma setDefaultDomain_keeps_status_domain {P} (ic : IngressControllerOf P)
    (ingressConfig : IngressConfig) :
  status_Domain (Status ic) ≠ "" →
  setDefaultDomain ic ingressConfig = (ic, false).
Proof.
  intros Hset. unfold setDefaultDomain.
  rewrite (bool_decide_eq_false_2 _ (λ H, Hset (proj1 (length_zero_iff_empty _) H))).
  done.
Qed.

Lemma alter_lookup_Some (f : EndpointPublishingStrategy → EndpointPublishingStrategy)
    (h : gmap loc EndpointPublishingStrategy) l e :
  h !! l = Some e → alter f l h = <[l := f e]> h.
Proof.
  intros Hl. apply map_eq. intros j. destruct (decide (l = j)) as [<-|Hne].
  - by rewrite lookup_alter_eq, lookup_insert_eq, Hl.
  - by rewrite lookup_alter_ne, lookup_insert_ne.
Qed.

Lemma fresh_loc_unused (h : gmap loc EndpointPublishingStrategy) :
  h !! fresh (dom h) = None.
Proof. apply not_elem_of_dom, is_fresh. Qed.

Lemma defaultStrategyType_table (platform : string) :
  defaultStrategyType platform =
    if bool_decide (platform = AWSPlatformType ∨ platform = AzurePlatformType
                    ∨ platform = GCPPlatformType)
    then LoadBalancerServiceStrategyType else HostNetworkStrategyType.
Proof.
  unfold defaultStrategyType.
  destruct (decide (platform = AWSPlatformType)) as [->|Haws]; [reflexivity|].
  destruct (decide (platform = AzurePlatformType)) as [->|Hazure]; [reflexivity|].
  destruct (decide (platform = GCPPlatformType)) as [->|Hgcp]; [reflexivity|].
  rewrite !bool_decide_eq_false_2 by tauto. simpl.
  rewrite (bool_decide_eq_false_2 (_ ∨ _)) by tauto.
  by destruct (bool_decide (platform = LibvirtPlatformType)).
Qed.

Lemma defaultStrategyParameters_eq (e : EndpointPublishingStrategy) :
  defaultStrategyParameters e =
    if bool_decide (eps_Type e = LoadBalancerServiceStrategyType
                    ∧ eps_LoadBalancer e = None)
    then {| eps_Type := LoadBalancerServiceStrategyType;
            eps_LoadBalancer := Some {| lb_Scope := ExternalLoadBalancer |} |}
    else e.
Proof.
  unfold defaultStrategyParameters.
  destruct (decide (eps_Type e = LoadBalancerServiceStrategyType)) as [Hty|Hty].
  - rewrite (bool_decide_eq_true_2 _ Hty).
    destruct e as [ty [lbs|]]; simpl in *.
    + by rewrite bool_decide_eq_false_2 by (by intros [_ ?]).
    + rewrite bool_decide_eq_true_2 by done. by rewrite Hty.
  - rewrite (bool_decide_eq_false_2 _ Hty).
    rewrite (bool_decide_eq_false_2 (_ ∧ _)) by (by intros [? _]).
    by repeat destruct (bool_decide _).
Qed.

(** What [setDefaultPublishingStrategy] computes, in one equation. *)
Lemma setDefaultPublishingStrategy_run (ic : IngressController)
    (infraConfig : Infrastructure) (s : State X) :
  setDefaultPublishingStrategy ic infraConfig s =
    let fresh_strategy :=
      {| eps_Type := defaultStrategyType (infra_Platform infraConfig);
         eps_LoadBalancer := None |} in
    let l := default (fresh (dom (heap s))) (spec_EndpointPublishingStrategy (Spec ic)) in
    let h := match spec_EndpointPublishingStrategy (Spec ic) with
             | Some l0 => alter defaultStrategyParameters l0 (heap s)
             | None => <[l := defaultStrategyParameters fresh_strategy]> (heap s)
             end in
    (match status_EndpointPublishingStrategy (Status ic) with
     | None =>
         (set_Status ic (set_status_EndpointPublishingStrategy (Status ic) (Some l)), true)
     | Some _ => (ic, false)
     end, {| heap := h; cluster := cluster s |}, []).
Proof.
  unfold setDefaultPublishingStrategy, bind, alloc, update, ret.
  destruct (spec_EndpointPublishingStrategy (Spec ic)),
    (status_EndpointPublishingStrategy (Status ic)); simpl;
    by rewrite ?alter_insert_eq.
Qed.

(** C6.  [setDefaultPublishingStrategy]: the strategy type chosen for a
    spec without a strategy follows the platform table (AWS, Azure and GCP
    give a load-balancer service, Libvirt and everything else the host
    network) and the new strategy is a fresh object; the parameters of a
    strategy are filled in, with the external scope, only if it is a
    load-balancer service strategy that has none; and the effective
    strategy is written into the status only if the status has none yet. *)
Theorem setDefaultPublishingStrategy_defaults (ic : IngressController)
    (infraConfig : Infrastructure) (s : State X) :
  let platform := infra_Platform infraConfig in
  let out := setDefaultPublishingStrategy ic infraConfig s in
  let ic' := out.1.1.1 in
  let s' := out.1.2 in
  (* the platform table *)
  defaultStrategyType AWSPlatformType = LoadBalancerServiceStrategyType ∧
  defaultStrategyType AzurePlatformType = LoadBalancerServiceStrategyType ∧
  defaultStrategyType GCPPlatformType = LoadBalancerServiceStrategyType ∧
  defaultStrategyType LibvirtPlatformType = HostNetworkStrategyType ∧
  (∀ p, defaultStrategyType p =
          if bool_decide (p = AWSPlatformType ∨ p = AzurePlatformType
                          ∨ p = GCPPlatformType)
          then LoadBalancerServiceStrategyType else HostNetworkStrategyType) ∧
  (* the effective strategy object *)
  (∃ l,
     match spec_EndpointPublishingStrategy (Spec ic) with
     | None =>
         l = fresh (dom (heap s)) ∧ heap s !! l = None ∧
         heap s' = <[l := defaultStrategyParameters
                            {| eps_Type := defaultStrategyType platform;
                               eps_LoadBalancer := None |}]> (heap s)
     | Some l0 =>
         l = l0 ∧ heap s' = alter defaultStrategyParameters l0 (heap s)
     end ∧
     (* written into the status only if the status has none yet *)
     match status_EndpointPublishingStrategy (Status ic) with
     | None =>
         ic' = set_Status ic (set_status_EndpointPublishingStrategy (Status ic) (Some l)) ∧
         out.1.1.2 = true
     | Some _ => ic' = ic ∧ out.1.1.2 = false
     end) ∧
  (* parameters are filled in only for a load-balancer strategy without any *)
  (∀ e, defaultStrategyParameters e =
          if bool_decide (eps_Type e = LoadBalancerServiceStrategyType
                          ∧ eps_LoadBalancer e = None)
          then {| eps_Type := LoadBalancerServiceStrategyType;
                  eps_LoadBalancer := Some {| lb_Scope := ExternalLoadBalancer |} |}
          else e) ∧
  cluster s' = cluster s ∧ out.2 = [].
Proof.
  intros platform out ic' s'. subst out ic' s'.
  split_and!; [reflexivity..|apply defaultStrategyType_table| | | |].
  - rewrite setDefaultPublishingStrategy_run.
    exists (default (fresh (dom (heap s))) (spec_EndpointPublishingStrategy (Spec ic))).
    destruct (spec_EndpointPublishingStrategy (Spec ic)) as [l0|],
      (status_EndpointPublishingStrategy (Status ic)); simpl;
      split_and!; try done; apply fresh_loc_unused.
  - apply defaultStrategyParameters_eq.
  - rewrite setDefaultPublishingStrategy_run.
    by destruct (status_EndpointPublishingStrategy (Status ic)).
  - rewrite setDefaultPublishingStrategy_run.
    by destruct (status_EndpointPublishingStrategy (Status ic)).
Qed.

(** C10.  When the spec points to a load-balancer service strategy without
    parameters, [setDefaultPublishingStrategy] overwrites that very object
    with the external scope filled in, and no other object: the spec as
    read through its pointer has changed, while the record's own spec
    fields (domain, replicas, the pointer) and the strategy's type are as
    before; a status without a strategy now shares the spec's object. *)
Theorem setDefaultPublishingStrategy_writes_through_spec_pointer
    (ic : IngressController) (infraConfig : Infrastructure) (s : State X) l e :
  spec_EndpointPublishingStrategy (Spec ic) = Some l →
  heap s !! l = Some e →
  eps_Type e = LoadBalancerServiceStrategyType →
  eps_LoadBalancer e = None →
  let out := setDefaultPublishingStrategy ic infraConfig s in
  let ic' := out.1.1.1 in
  let s' := out.1.2 in
  let filled := {| eps_Type := LoadBalancerServiceStrategyType;
                   eps_LoadBalancer := Some {| lb_Scope := ExternalLoadBalancer |} |} in
  (* the object the spec points to is overwritten, and nothing else is *)
  heap s' = <[l := filled]> (heap s) ∧
  (* so the spec, read through its pointer, has changed *)
  Spec (resolve (heap s) ic) =
    {| spec_Domain := spec_Domain (Spec ic); spec_Replicas := spec_Replicas (Spec ic);
       spec_EndpointPublishingStrategy := Some e |} ∧
  Spec (resolve (heap s') ic) =
    {| spec_Domain := spec_Domain (Spec ic); spec_Replicas := spec_Replicas (Spec ic);
       spec_EndpointPublishingStrategy := Some filled |} ∧
  Spec (resolve (heap s') ic) ≠ Spec (resolve (heap s) ic) ∧
  (* the record's own spec fields, the pointer included, are as before *)
  Spec ic' = Spec ic ∧
  (* and the status, if it had no strategy, now shares the spec's object *)
  (status_EndpointPublishingStrategy (Status ic) = None →
     status_EndpointPublishingStrategy (Status ic') = Some l) ∧
  (status_EndpointPublishingStrategy (Status ic) ≠ None → Status ic' = Status ic).
Proof.
  intros Hspec Hl Hty Hlb out ic' s' filled. subst out ic' s'.
  assert (defaultStrategyParameters e = filled) as Hfill.
  { rewrite defaultStrategyParameters_eq. by rewrite bool_decide_eq_true_2. }
  rewrite setDefaultPublishingStrategy_run, Hspec. simpl.
  rewrite (alter_lookup_Some _ _ _ _ Hl), Hfill.
  assert (∀ st (i : IngressController), Spec (set_Status i st) = Spec i) as Hsp by done.
  split_and!.
  - by destruct (status_EndpointPublishingStrategy (Status ic)).
  - unfold resolve, map_spec; simpl. by rewrite Hspec; simpl; rewrite Hl.
  - destruct (status_EndpointPublishingStrategy (Status ic)); simpl;
      unfold map_spec; rewrite Hspec; simpl; by rewrite lookup_insert_eq.
  - destruct (status_EndpointPublishingStrategy (Status ic)); simpl;
      unfold map_spec; rewrite Hspec; simpl; rewrite lookup_insert_eq, Hl;
      intros [= Heq]; by rewrite <- Heq in Hlb.
  - by destruct (status_EndpointPublishingStrategy (Status ic)).
  - intros ->. done.
  - by destruct (status_EndpointPublishingStrategy (Status ic)).
Qed.

End admission_pipeline.

Section copies.
Context {X : Type}.

Lemma alloc_opt_run (v : option EndpointPublishingStrategy) (s : State X) :
  ∃ p h', alloc_opt v s = (p, {| heap := h'; cluster := cluster s |}, []) ∧
          heap s ⊆ h' ∧ deref h' p = v ∧
          (∀ l, p = Some l → heap s !! l = None ∧ is_Some (h' !! l)).
Proof.
  destruct v as [e|]; simpl.
  - exists (Some (fresh (dom (heap s)))), (<[fresh (dom (heap s)) := e]> (heap s)).
    split_and!.
    + done.
    + apply insert_subseteq, fresh_loc_unused.
    + simpl. apply lookup_insert_eq.
    + intros l [= <-]. split; [apply fresh_loc_unused|].
      rewrite lookup_insert_eq. eauto.
  - exists None, (heap s). split_and!; try done. by destruct s.
Qed.

Lemma decode_run (obj : IngressControllerObject) (s : State X) :
  ∃ ic h', decode obj s = (ic, {| heap := h'; cluster := cluster s |}, []) ∧
           fresh_copy (heap s) obj ic h'.
Proof.
  unfold decode, bind.
  destruct (alloc_opt_run (spec_EndpointPublishingStrategy (Spec obj)) s)
    as (p1 & h1 & -> & Hsub1 & Hd1 & Hf1).
  destruct (alloc_opt_run (status_EndpointPublishingStrategy (Status obj))
              {| heap := h1; cluster := cluster s |})
    as (p2 & h2 & -> & Hsub2 & Hd2 & Hf2).
  simpl in *. eexists _, h2. split; [done|].
  split_and!.
  - by etrans.
  - destruct obj as [n ns u d f [sd sr se] [sa ss sdm sst sc]]; simpl in *.
    unfold resolve, map_spec, resolve_status, map_status; simpl.
    do 2 f_equal; [|done].
    destruct p1 as [l1|]; simpl in *; [|done].
    destruct (Hf1 l1 eq_refl) as [_ [v Hv]].
    rewrite Hv in Hd1. rewrite <- Hd1.
    by eapply lookup_weaken.
  - simpl. intros l ->. by destruct (Hf1 l).
  - simpl. intros l ->. destruct (Hf2 l eq_refl) as [Hnone _].
    destruct (heap s !! l) eqn:Hl; [|done].
    by rewrite (lookup_weaken _ _ _ _ Hl Hsub1) in Hnone.
Qed.

Lemma DeepCopy_run (ic : IngressController) (s : State X) :
  ∃ ic' h', DeepCopy ic s = (ic', {| heap := h'; cluster := cluster s |}, []) ∧
            fresh_copy (heap s) (resolve (heap s) ic) ic' h'.
Proof.
  unfold DeepCopy, bind, get_heap.
  destruct (decode_run (resolve (heap s) ic) s) as (ic' & h' & -> & Hcopy).
  by exists ic', h'.
Qed.

End copies.

Section admission.
Context {X : Type} (r : Collaborators X) (config : Config).

Lemma validateDomainUniqueness_ext {P P' Q} (a : IngressControllerOf P)
    (b : IngressControllerOf P') (Items : list (IngressControllerOf Q)) :
  UID a = UID b → status_Domain (Status a) = status_Domain (Status b) →
  validateDomainUniqueness a Items = validateDomainUniqueness b Items.
Proof.
  intros Huid Hdom. induction Items as [|c rest IH]; simpl; [done|].
  by rewrite Huid, Hdom, IH.
Qed.

Lemma setDefaultPublishingStrategy_frame (ic : IngressController)
    (infraConfig : Infrastructure) (s : State X)
    (h0 : gmap loc EndpointPublishingStrategy) :
  h0 ⊆ heap s →
  (∀ l, spec_EndpointPublishingStrategy (Spec ic) = Some l → h0 !! l = None) →
  ∃ ic' b h',
    setDefaultPublishingStrategy ic infraConfig s =
      (ic', b, {| heap := h'; cluster := cluster s |}, []) ∧
    h0 ⊆ h' ∧
    Name ic' = Name ic ∧ UID ic' = UID ic ∧ Spec ic' = Spec ic ∧
    status_Domain (Status ic') = status_Domain (Status ic) ∧
    status_Conditions (Status ic') = status_Conditions (Status ic).
Proof.
  intros Hsub Hfresh. rewrite setDefaultPublishingStrategy_run. cbv zeta.
  set (h' := match spec_EndpointPublishingStrategy (Spec ic) with
             | Some l0 => alter defaultStrategyParameters l0 (heap s)
             | None => _
             end).
  assert (h0 ⊆ h') as Hsub'.
  { apply map_subseteq_spec. intros l v Hl. subst h'.
    destruct (spec_EndpointPublishingStrategy (Spec ic)) as [l0|] eqn:Hspec; simpl.
    - rewrite lookup_alter_ne; [by eapply lookup_weaken|].
      intros <-. by rewrite (Hfresh l0) in Hl.
    - rewrite lookup_insert_ne; [by eapply lookup_weaken|].
      intros <-. eapply lookup_weaken in Hl; [|done].
      by rewrite fresh_loc_unused in Hl. }
  destruct (status_EndpointPublishingStrategy (Status ic));
    eexists _, _, h'; (split; [reflexivity|]); by split.
Qed.

Lemma validate_run (ic : IngressController) (s : State X) :
  validate r config ic s =
    let listed := cache_List_IngressControllers r (cfg_Namespace config) (cluster s) in
    (match listed.1 with
     | inl err => Some (Errorf "failed to list ingresscontrollers" err)
     | inr Items => rejection (verdict_on ic Items)
     end,
     {| heap := heap s; cluster := listed.2 |},
     [OpListIngressControllers (cfg_Namespace config) listed.1]).
Proof.
  unfold validate, bind, call, verdict_on, rejection. cbv zeta.
  destruct (cache_List_IngressControllers r (cfg_Namespace config) (cluster s))
    as [[err|Items] x1]; simpl; [done|].
  by destruct (NewAggregate _).
Qed.

Lemma verdict_on_ext {P P' Q} (a : IngressControllerOf P) (b : IngressControllerOf P')
    (Items : list (IngressControllerOf Q)) :
  UID a = UID b → status_Domain (Status a) = status_Domain (Status b) →
  verdict_on a Items = verdict_on b Items.
Proof.
  intros Huid Hdom. unfold verdict_on, validateDomain.
  by rewrite (validateDomainUniqueness_ext a b), Hdom.
Qed.

Lemma setDefaultDomain_fields {P Q} (a : IngressControllerOf P) (b : IngressControllerOf Q)
    (ingressConfig : IngressConfig) :
  spec_Domain (Spec a) = spec_Domain (Spec b) →
  status_Domain (Status a) = status_Domain (Status b) →
  status_Domain (Status (setDefaultDomain a ingressConfig).1) =
    status_Domain (Status (setDefaultDomain b ingressConfig).1).
Proof.
  intros Hspec Hstatus. unfold setDefaultDomain. rewrite Hspec, Hstatus.
  by repeat case_bool_decide.
Qed.

Lemma setDefaultDomain_frame {P} (ic : IngressControllerOf P) (ingressConfig : IngressConfig) :
  let ic' := (setDefaultDomain ic ingressConfig).1 in
  Name ic' = Name ic ∧ UID ic' = UID ic ∧ Spec ic' = Spec ic ∧
  Finalizers ic' = Finalizers ic ∧
  status_Conditions (Status ic') = status_Conditions (Status ic) ∧
  status_EndpointPublishingStrategy (Status ic') =
    status_EndpointPublishingStrategy (Status ic).
Proof. unfold setDefaultDomain. by repeat case_bool_decide. Qed.

(** One run of [admit], described by the object [computed] that it would
    write: the caller's record with the defaults and the merged condition. *)
Lemma admit_run (current : IngressController) (ingressConfig : IngressConfig)
    (infraConfig : Infrastructure) (s : State X) :
  ∃ computed : IngressControllerObject,
    let out := reconciler_admit r config current ingressConfig infraConfig s in
    let s' := out.1.2 in
    let listed := cache_List_IngressControllers r (cfg_Namespace config) (cluster s) in
    heap s ⊆ heap s' ∧
    Name computed = Name current ∧ UID computed = UID current ∧
    status_Domain (Status computed) =
      status_Domain (Status (setDefaultDomain current ingressConfig).1) ∧
    match listed.1 with
    | inl err =>
        out = (Some (Errorf "failed to list ingresscontrollers" err),
               {| heap := heap s'; cluster := listed.2 |},
               [OpListIngressControllers (cfg_Namespace config) listed.1])
    | inr Items =>
        let verdict := verdict_on computed Items in
        status_Conditions (Status computed) =
          mergeConditions r (status_Conditions (Status current))
            (admitted_condition verdict) ∧
        if ingressStatusesEqual r (resolve_status (heap s') (Status current))
                                  (Status computed)
        then out = (rejection verdict, {| heap := heap s'; cluster := listed.2 |},
                    [OpListIngressControllers (cfg_Namespace config) listed.1])
        else
          let written := client_Status_Update r computed listed.2 in
          out = (match written.1 with
                 | Some uerr => Some (Errorf "failed to update status" uerr)
                 | None => rejection verdict
                 end,
                 {| heap := heap s'; cluster := written.2 |},
                 [OpListIngressControllers (cfg_Namespace config) listed.1;
                  OpStatusUpdate computed written.1])
    end.
Proof.
  destruct (DeepCopy_run current s) as (u0 & h1 & Hrun & Hsub & Hres & Hfs & Hft).
  set (u1 := (setDefaultDomain u0 ingressConfig).1).
  destruct (setDefaultPublishingStrategy_frame u1 infraConfig
              {| heap := h1; cluster := cluster s |} (heap s))
    as (u2 & b & h2 & Hdef & Hsub2 & Hname & Huid & Hspec & Hdom & Hconds).
  { done. }
  { intros l Hl. apply Hfs. rewrite <- Hl. subst u1. unfold setDefaultDomain.
    by repeat case_bool_decide. }
  destruct (cache_List_IngressControllers r (cfg_Namespace config) (cluster s))
    as [listed x1] eqn:Hlist.
  destruct (setDefaultDomain_frame u0 ingressConfig)
    as (Hname1 & Huid1 & Hspec1 & _ & Hconds1 & _). fold u1 in Hname1, Huid1, Hspec1, Hconds1.
  assert (Name u0 = Name current) as Hname0 by exact (f_equal Name Hres).
  assert (UID u0 = UID current) as Huid0 by exact (f_equal UID Hres).
  assert (status_Conditions (Status u0) = status_Conditions (Status current)) as Hconds0
    by exact (f_equal (λ o, status_Conditions (Status o)) Hres).
  assert (status_Domain (Status u1) =
          status_Domain (Status (setDefaultDomain current ingressConfig).1)) as Hdom1.
  { apply setDefaultDomain_fields.
    - exact (f_equal (λ o, spec_Domain (Spec o)) Hres).
    - exact (f_equal (λ o, status_Domain (Status o)) Hres). }
  unfold reconciler_admit, bind. rewrite Hrun. fold u1. rewrite Hdef.
  rewrite validate_run. cbv zeta. simpl. rewrite Hlist. simpl.
  destruct listed as [err|Items].
  - exists (resolve h2 u2). simpl. split_and!; [done|congruence..|done].
  - set (final := set_Status u2
           (set_status_Conditions (Status u2)
              (mergeConditions r (status_Conditions (Status u2))
                 (admitted_condition (verdict_on u2 Items))))).
    exists (resolve h2 final).
    assert (verdict_on (resolve h2 final) Items = verdict_on u2 Items) as ->
      by by apply verdict_on_ext.
    subst final.
    destruct (verdict_on u2 Items) as [verr|]; simpl.
    all: lazymatch goal with
         | |- context [negb (ingressStatusesEqual r ?a ?b)] =>
             destruct (ingressStatusesEqual r a b) eqn:Hsame
         end; simpl.
    all: unfold call; simpl.
    all: try lazymatch goal with
         | |- context [let '(_, _) := client_Status_Update r ?o ?x in _] =>
             destruct (client_Status_Update r o x) as [[uerr|] x2] eqn:Hwrite
         end; simpl.
    all: unfold resolve, resolve_status in *; simpl in *.
    all: rewrite ?Hsame, ?Hwrite; simpl.
    all: split_and!; [done|congruence..|done].
Qed.

End admission.

Section admit_properties.
Context {X : Type} (r : Collaborators X) (config : Config).

(** C5.  A record whose status has a domain keeps it through [admit]:
    [setDefaultDomain] leaves the record as it is, whatever the spec and
    the cluster default say, and every status write [admit] issues carries
    the status domain the record came with. *)
Theorem admit_keeps_status_domain (current : IngressController)
    (ingressConfig : IngressConfig) (infraConfig : Infrastructure) (s : State X) :
  status_Domain (Status current) ≠ "" →
  setDefaultDomain current ingressConfig = (current, false) ∧
  ∀ obj err,
    OpStatusUpdate obj err ∈ (reconciler_admit r config current ingressConfig infraConfig s).2 →
    status_Domain (Status obj) = status_Domain (Status current).
Proof.
  intros Hset.
  pose proof (setDefaultDomain_keeps_status_domain current ingressConfig Hset) as Hkeep.
  split; [done|].
  destruct (admit_run r config current ingressConfig infraConfig s)
    as (computed & _ & _ & _ & Hdom & Hout).
  rewrite Hkeep in Hdom. simpl in Hdom.
  intros obj err.
  destruct (cache_List_IngressControllers r (cfg_Namespace config) (cluster s)).1
    as [lerr|Items].
  - rewrite Hout. simpl. by intros [=]%list_elem_of_singleton.
  - destruct Hout as [_ Hout].
    destruct (ingressStatusesEqual r _ _); rewrite Hout; simpl.
    + by intros [=]%list_elem_of_singleton.
    + intros [[=] | [= <- _]%list_elem_of_singleton]%elem_of_cons. done.
Qed.

(** C7.  [admit] talks to its collaborators only to list the sibling
    records and to write the status.  If the listing fails nothing is
    written; otherwise the status computed for the record (defaults
    applied, the [Admitted] condition merged in, [True] or [False] by the
    verdict) is written exactly when [ingressStatusesEqual] tells it apart
    from the current status. *)
Theorem admit_writes_status_only (current : IngressController)
    (ingressConfig : IngressConfig) (infraConfig : Infrastructure) (s : State X) :
  let out := reconciler_admit r config current ingressConfig infraConfig s in
  let listed := cache_List_IngressControllers r (cfg_Namespace config) (cluster s) in
  (* nothing but the listing and the status write *)
  Forall admission_op out.2 ∧
  match listed.1 with
  | inl err => out.2 = [OpListIngressControllers (cfg_Namespace config) (inl err)]
  | inr Items =>
      (* the computed status: the defaulted domain, and the condition merged in *)
      ∃ computed : IngressControllerObject,
        Name computed = Name current ∧
        status_Domain (Status computed) =
          status_Domain (Status (setDefaultDomain current ingressConfig).1) ∧
        status_Conditions (Status computed) =
          mergeConditions r (status_Conditions (Status current))
            (admitted_condition (verdict_on computed Items)) ∧
        (* written exactly when it differs from the current status *)
        out.2 =
          OpListIngressControllers (cfg_Namespace config) (inr Items) ::
          if ingressStatusesEqual r (resolve_status (heap out.1.2) (Status current))
                                    (Status computed)
          then []
          else [OpStatusUpdate computed (client_Status_Update r computed listed.2).1]
  end.
Proof.
  intros out listed. subst out listed.
  destruct (admit_run r config current ingressConfig infraConfig s)
    as (computed & _ & Hname & _ & Hdom & Hout).
  destruct (cache_List_IngressControllers r (cfg_Namespace config) (cluster s)).1
    as [lerr|Items].
  - rewrite Hout. simpl. split; [|done]. by repeat constructor.
  - destruct Hout as [Hconds Hout].
    destruct (ingressStatusesEqual r _ _) eqn:Hsame; rewrite Hout in *; simpl in *.
    + split; [by repeat constructor|].
      exists computed. by rewrite Hsame.
    + split; [by repeat constructor|].
      exists computed. by rewrite Hsame.
Qed.

(** C9.  If the listing of sibling records fails, [admit] returns that
    failure and writes nothing.  On every call, each object in memory
    before the call holds the same value after it, so the caller's record,
    read through its pointers, is unchanged. *)
Theorem admit_leaves_caller_record (current : IngressController)
    (ingressConfig : IngressConfig) (infraConfig : Infrastructure) (s : State X) :
  let out := reconciler_admit r config current ingressConfig infraConfig s in
  let listed := cache_List_IngressControllers r (cfg_Namespace config) (cluster s) in
  (* a failed listing is returned as it is, and nothing is written *)
  (∀ err, listed.1 = inl err →
     out.1.1 = Some (Errorf "failed to list ingresscontrollers" err) ∧
     out.2 = [OpListIngressControllers (cfg_Namespace config) (inl err)] ∧
     cluster out.1.2 = listed.2) ∧
  (* every object in memory before the call is the same after it *)
  heap s ⊆ heap out.1.2 ∧
  (* so the caller's record reads as before *)
  (is_Some (deref (heap s) (spec_EndpointPublishingStrategy (Spec current))) ∨
     spec_EndpointPublishingStrategy (Spec current) = None →
   is_Some (deref (heap s) (status_EndpointPublishingStrategy (Status current))) ∨
     status_EndpointPublishingStrategy (Status current) = None →
   resolve (heap out.1.2) current = resolve (heap s) current).
Proof.
  intros out listed. subst out listed.
  destruct (admit_run r config current ingressConfig infraConfig s)
    as (computed & Hsub & _ & _ & _ & Hout).
  split_and!.
  - intros err Herr. rewrite Herr in Hout. by rewrite Hout.
  - done.
  - assert (∀ p, is_Some (deref (heap s) p) ∨ p = None →
                 deref (heap (reconciler_admit r config current ingressConfig infraConfig s).1.2) p
                 = deref (heap s) p) as Hderef.
    { intros [l|] [[v Hv] | ?]; simplify_eq/=; try done.
      rewrite Hv. by eapply lookup_weaken. }
    intros Hspec Hstatus.
    unfold resolve, resolve_status, map_spec, map_status.
    by rewrite !Hderef.
Qed.

End admit_properties.

Section deletion.
Context {X : Type} (r : Collaborators X) (config : Config).

Lemma length_zero_match {A} (l : list A) :
  bool_decide (length l = 0) = match l with [] => true | _ => false end.
Proof. by destruct l. Qed.

(** One pass of [ensureIngressDeleted], path by path. *)
Lemma ensureIngressDeleted_run (ingress : IngressController) (s : State X) :
  let obj := resolve (heap s) ingress in
  let f := finalizeLoadBalancerService r obj (cluster s) in
  let d := deleteWildcardDNSRecord r obj f.2 in
  let c := currentWildcardDNSRecord r obj d.2 in
  let t := ensureRouterDeleted r obj c.2 in
  let head := [OpFinalizeLoadBalancerService f.1; OpDeleteWildcardDNSRecord d.1;
               OpCurrentWildcardDNSRecord c.1] in
  let errs := deletion_errors ingress f.1 d.1 c.1.2 t.1 in
  let out := ensureIngressDeleted r ingress s in
  match c.1 with
  | (Some _, None) => out = (None, {| heap := heap s; cluster := c.2 |}, head)
  | _ =>
      if bool_decide (length errs = 0)
         && slice_ContainsString r (Finalizers ingress) IngressControllerFinalizer
      then
        ∃ sent h',
          Finalizers sent =
            slice_RemoveString r (Finalizers ingress) IngressControllerFinalizer ∧
          let u := client_Update r sent t.2 in
          out = (NewAggregate
                   (append_error errs
                      (wrap ("failed to remove finalizer from ingresscontroller "
                             +:+ Name ingress) u.1)),
                 {| heap := h'; cluster := u.2 |},
                 head ++ [OpEnsureRouterDeleted t.1; OpUpdate sent u.1])
      else
        out = (NewAggregate errs, {| heap := heap s; cluster := t.2 |},
               head ++ [OpEnsureRouterDeleted t.1])
  end.
Proof.
  cbv zeta.
  unfold ensureIngressDeleted, deletion_errors, bind, call, get_heap, ret. simpl.
  destruct (finalizeLoadBalancerService r _ _) as [e1 x1]. simpl.
  destruct (deleteWildcardDNSRecord r _ _) as [e2 x2]. simpl.
  destruct (currentWildcardDNSRecord r _ _) as [[record e3] x3]. simpl.
  destruct (ensureRouterDeleted r _ _) as [e4 x4] eqn:Ht.
  destruct record as [record|], e3 as [e3|]; simpl; rewrite ?Ht; simpl; try done.
  all: rewrite !length_zero_match.
  all: destruct e1 as [e1|], e2 as [e2|], e4 as [e4|]; simpl; try done.
  all: destruct (slice_ContainsString r _ _); simpl; [|by destruct s].
  all: lazymatch goal with
       | |- context [DeepCopy ?i ?st] =>
           destruct (DeepCopy_run i st) as (u & h' & -> & _ & Hres & _)
       end; simpl.
  all: destruct (client_Update r _ _) as [uerr x5] eqn:Hupd.
  all: eexists _, h'; split; [|simpl; rewrite Hupd; by destruct uerr].
  all: simpl; by replace (Finalizers u) with (Finalizers ingress)
         by exact (eq_sym (f_equal Finalizers Hres)).
Qed.

(** C1.  In a pass of [ensureIngressDeleted] the wildcard DNS record is
    always read; if the read returns a record, the pass issues no update of
    the ingresscontroller (and, if the read returned no error, ends right
    there with a nil result); an update, which is the removal of the
    finalizer, happens only in a pass whose read returned neither a record
    nor an error. *)
Theorem ensureIngressDeleted_waits_for_dnsrecord (ingress : IngressController)
    (s : State X) :
  let out := ensureIngressDeleted r ingress s in
  (* the record is read on every pass *)
  (∃ got, out.2 !! 2 = Some (OpCurrentWildcardDNSRecord got)) ∧
  (* a record that is still there: no finalizer update *)
  (∀ record err,
     OpCurrentWildcardDNSRecord (Some record, err) ∈ out.2 →
     ∀ obj uerr, OpUpdate obj uerr ∉ out.2) ∧
  (* read without error: the pass ends there, and reports nothing *)
  (∀ record,
     OpCurrentWildcardDNSRecord (Some record, None) ∈ out.2 →
     out.1.1 = None ∧
     last out.2 = Some (OpCurrentWildcardDNSRecord (Some record, None))) ∧
  (* the finalizer is removed only on a pass that read no record *)
  (∀ obj uerr,
     OpUpdate obj uerr ∈ out.2 →
     OpCurrentWildcardDNSRecord (None, None) ∈ out.2 ∧
     Finalizers obj =
       slice_RemoveString r (Finalizers ingress) IngressControllerFinalizer).
Proof.
  intros out. subst out.
  pose proof (ensureIngressDeleted_run ingress s) as Hrun. cbv zeta in Hrun.
  destruct (currentWildcardDNSRecord r _ _) as [[record e3] x3].
  set (errs := deletion_errors _ _ _ _ _) in Hrun.
  assert (e3 ≠ None → errs ≠ []) as Herrs.
  { subst errs. unfold deletion_errors. simpl. destruct e3 as [e3|]; [|done].
    intros _. simpl.
    by destruct (wrap _ (ensureRouterDeleted r _ _).1); simpl;
      intros ?%app_eq_nil; destruct_and?. }
  destruct record as [record|], e3 as [e3|]; simpl in Hrun.
  - destruct errs; [by destruct Herrs|]. simpl in Hrun. rewrite Hrun. simpl.
    split_and!; [eauto|..]; set_solver.
  - rewrite Hrun. simpl. split_and!; [eauto|set_solver| |set_solver].
    intros record' Hin. assert (record' = record) as -> by set_solver. done.
  - destruct errs; [by destruct Herrs|]. simpl in Hrun. rewrite Hrun. simpl.
    split_and!; [eauto|..]; set_solver.
  - destruct (_ && _).
    + destruct Hrun as (sent & h' & Hfin & Hrun). rewrite Hrun. simpl.
      split_and!; [eauto|set_solver|set_solver|].
      intros obj uerr Hin. split; [set_solver|].
      assert (obj = sent) as -> by set_solver. done.
    + rewrite Hrun. simpl. split_and!; [eauto|..]; set_solver.
Qed.

End deletion.

Section convergence.
Context {X : Type} (r : Collaborators X) (config : Config).

Lemma ensureIngressController_with_deployment_ops (ci : IngressController)
    (deployment : Deployment) (dnsConfig : DNSConfig) (infraConfig : Infrastructure)
    (ingressConfig : IngressConfig) (s : State X) :
  Forall after_deployment
    (ensureIngressController_with_deployment r ci deployment dnsConfig
       infraConfig ingressConfig s).2.
Proof.
  unfold ensureIngressController_with_deployment, bind, call, get_heap, ret. simpl.
  destruct (ensureLoadBalancerService r _ _ _ _) as [[lb [e1|]] x1]; simpl.
  2: destruct (ensureWildcardDNSRecord r _ _ _) as [[rec [e2|]] x2]; simpl.
  all: destruct (ensureInternalIngressControllerService r _ _ _) as [[svc [e3|]] x3]; simpl.
  all: try destruct (ensureMetricsIntegration r _ _ _ _) as [e4 x4]; simpl.
  all: destruct (ensureRsyslogConfigMap r _ _ _ _) as [e5 x5]; simpl.
  all: destruct (ensureRouterPodDisruptionBudget r _ _ _) as [e6 x6]; simpl.
  all: destruct (cache_List_Events r _ _) as [[evs e7] x7]; simpl.
  all: destruct (syncIngressControllerStatus r _ _ _ _ _ _ _) as [e8 x8]; simpl.
  all: by repeat constructor.
Qed.

(** C2, as amended.  A failure to ensure the router deployment ends the
    pass: [ensureIngressController] returns that failure alone, the failed
    call is the last one it makes, and none of the later steps (the
    load-balancer service, the DNS record, the internal service, the
    metrics integration, the config map, the disruption budget, the event
    listing, the status sync) is attempted. *)
Theorem ensureIngressController_stops_without_deployment (ci : IngressController)
    (dnsConfig : DNSConfig) (infraConfig : Infrastructure)
    (ingressConfig : IngressConfig) (s : State X) :
  let out := ensureIngressController r ci dnsConfig infraConfig ingressConfig s in
  ∀ err,
    OpEnsureRouterDeployment (inl err) ∈ out.2 →
    out.1.1 = Some (Errorf "failed to ensure deployment" err) ∧
    last out.2 = Some (OpEnsureRouterDeployment (inl err)) ∧
    Forall (λ op, ¬ after_deployment op) out.2.
Proof.
  intros out err. subst out.
  unfold ensureIngressController, bind, call, get_heap, ret.
  destruct (slice_ContainsString r _ _); simpl.
  - destruct (ensureRouterNamespace r _) as [[e1|] x1]; simpl.
    { intros H. elem_of_ops H. }
    destruct (ensureRouterDeployment r _ _ _ _) as [[e2|d] x2]; simpl.
    { intros H. elem_of_ops H. injection H as <-.
      split_and!; [done..|]. repeat constructor; by intros []. }
    pose proof (ensureIngressController_with_deployment_ops ci d dnsConfig
                  infraConfig ingressConfig {| heap := heap s; cluster := x2 |}) as Hops.
    destruct (ensureIngressController_with_deployment r _ _ _ _ _ _) as [[res s'] ops].
    simpl in *. intros H. elem_of_ops H.
    rewrite Forall_forall in Hops. by destruct (Hops _ H).
  - destruct (DeepCopy_run ci s) as (u & h' & -> & _). simpl.
    destruct (client_Update r _ _) as [[e0|] x0]; simpl.
    { intros H. elem_of_ops H. }
    destruct (client_Get_IngressController r _ _) as [[eg|obj] xg]; simpl.
    { intros H. elem_of_ops H. }
    destruct (decode_run obj {| heap := h'; cluster := xg |}) as (ci' & h2 & -> & _).
    simpl.
    destruct (ensureRouterNamespace r _) as [[e1|] x1]; simpl.
    { intros H. elem_of_ops H. }
    destruct (ensureRouterDeployment r _ _ _ _) as [[e2|d] x2]; simpl.
    { intros H. elem_of_ops H. injection H as <-.
      split_and!; [done..|]. repeat constructor; by intros []. }
    pose proof (ensureIngressController_with_deployment_ops ci' d dnsConfig
                  infraConfig ingressConfig {| heap := h2; cluster := x2 |}) as Hops.
    destruct (ensureIngressController_with_deployment r _ _ _ _ _ _) as [[res s'] ops].
    simpl in *. intros H. elem_of_ops H.
    rewrite Forall_forall in Hops. by destruct (Hops _ H).
Qed.

End convergence.

Section driver.
Context {X : Type} (r : Collaborators X) (config : Config).

(** C8.  [Reconcile]: if the record cannot be fetched, a not-found error
    ends the pass with an empty result and no error, and any other error is
    returned; if the pass reaches admission, a rejection is recorded as a
    [Warning] event and the pass ends with an empty result and no error, a
    success is recorded as a [Normal] event and asks for a requeue with no
    error, and any other error of [admit] is returned, without an event. *)
Theorem Reconcile_outcomes (request : Request) (s : State X) :
  let key := req_NamespacedName request in
  let got := client_Get_IngressController r key (cluster s) in
  let out := Reconcile r config request s in
  (* the record cannot be fetched *)
  (∀ err, got.1 = inl err →
     out = (({| Requeue := false |},
             if IsNotFound err then None
             else Some (Errorf ("failed to get ingresscontroller "
                                +:+ fmt_q r (Request_String request)) err)),
            {| heap := heap s; cluster := got.2 |},
            [OpGetIngressController key (inl err)])) ∧
  (* the record goes through admission *)
  (∀ ingress ingressConfig infraConfig s1 pre,
     reaches_admission r request s ingress ingressConfig infraConfig s1 pre →
     let a := reconciler_admit r config ingress ingressConfig infraConfig s1 in
     out.1.2 = a.1.2 ∧
     match a.1.1 with
     | Some (admissionRejection Reason) =>
         out.1.1 = ({| Requeue := false |}, None) ∧
         out.2 = pre ++ a.2 ++ [OpEvent (Name ingress) "Warning" "Rejected" Reason]
     | Some err =>
         out.1.1 = ({| Requeue := false |},
                    Some (Errorf "failed to admit ingresscontroller" err)) ∧
         out.2 = pre ++ a.2
     | None =>
         out.1.1 = ({| Requeue := true |}, None) ∧
         out.2 = pre ++ a.2 ++
                 [OpEvent (Name ingress) "Normal" "Admitted"
                    "ingresscontroller passed validation"]
     end).
Proof.
  intros key got out. subst key got out. split.
  - intros err Hgot. unfold Reconcile, bind, call.
    destruct (client_Get_IngressController r _ _) as [got x0]. simpl in *.
    subst got. by destruct (IsNotFound err).
  - intros ingress ingressConfig infraConfig s1 pre
      (obj & x0 & sd & dnsConfig & x1 & x2 & x3 & Hget & Hdec & Hdel & Hdns &
       Hinfra & Hing & Hadm & -> & ->).
    unfold Reconcile, bind, call, emit. rewrite Hget. simpl. rewrite Hdec, Hdel.
    pose proof (decode_run obj {| heap := heap s; cluster := x0 |})
      as (ic' & h' & Hdec' & _).
    rewrite Hdec in Hdec'. injection Hdec' as -> ->. simpl.
    rewrite Hdns. simpl. rewrite Hinfra. simpl. rewrite Hing. simpl.
    rewrite Hadm. simpl.
    destruct (reconciler_admit r config _ _ _ _) as [[[[]|] s'] ops]; simpl;
      by rewrite ?app_nil_r.
Qed.

End driver.

(** * Runs against the sample cluster *)

Section deletion_defect.
Context {X : Type} (r : Collaborators X).

(** Past the wait for the DNS record, a pass of [ensureIngressDeleted]
    reports everything its steps returned: the result is the aggregate of
    the errors of the four deletion steps and of the finalizer update. *)
Lemma ensureIngressDeleted_reports_errors_past_the_wait
    (ingress : IngressController) (s : State X) :
  let obj := resolve (heap s) ingress in
  let f := finalizeLoadBalancerService r obj (cluster s) in
  let d := deleteWildcardDNSRecord r obj f.2 in
  let c := currentWildcardDNSRecord r obj d.2 in
  let t := ensureRouterDeleted r obj c.2 in
  (∀ record, c.1 ≠ (Some record, None)) →
  ∃ e5,
    (ensureIngressDeleted r ingress s).1.1 =
      NewAggregate (append_error (deletion_errors ingress f.1 d.1 c.1.2 t.1) e5).
Proof.
  intros obj f d c t Hpast. subst obj f d c t.
  pose proof (ensureIngressDeleted_run r ingress s) as Hrun. cbv zeta in Hrun.
  destruct (currentWildcardDNSRecord r _ _) as [[[record|] [e3|]] x3];
    simpl in *; try (by destruct (Hpast record)).
  all: destruct (_ && _);
    [destruct Hrun as (sent & h' & _ & ->); by eexists
    |rewrite Hrun; by exists None].
Qed.

End deletion_defect.

(** C3 (defect).  The record [default] is being deleted; finalizing its
    load-balancer service fails and its wildcard DNS record is still there.
    The pass ends at the read of the record with a nil result: the error of
    the first step, which the pass had collected, is not in what it
    returns. *)
Lemma ensureIngressDeleted_drops_collected_error :
  (ensureIngressDeleted Fake.collaborators (Fake.default_ic true)
     (Fake.start (Fake.faulty Fake.cluster_with_default 1 false true false))).2
  = [OpFinalizeLoadBalancerService (Some (ErrorString "load balancer still in use"));
     OpDeleteWildcardDNSRecord None;
     OpCurrentWildcardDNSRecord (Some {| dnsrecord_Name := "default-wildcard" |}, None)] ∧
  (ensureIngressDeleted Fake.collaborators (Fake.default_ic true)
     (Fake.start (Fake.faulty Fake.cluster_with_default 1 false true false))).1.1
  = None.
Proof. split; vm_compute; reflexivity. Qed.

(** The wildcard DNS record of [default] is still there: the pass reads
    it, returns nil and leaves the finalizer alone. *)
Lemma ensureIngressDeleted_waits_for_dnsrecord_witness :
  OpCurrentWildcardDNSRecord (Some {| dnsrecord_Name := "default-wildcard" |}, None)
    ∈ (ensureIngressDeleted Fake.collaborators (Fake.default_ic true)
         (Fake.start (Fake.faulty Fake.cluster_with_default 1 false false false))).2 ∧
  (ensureIngressDeleted Fake.collaborators (Fake.default_ic true)
     (Fake.start (Fake.faulty Fake.cluster_with_default 1 false false false))).1.1 = None ∧
  ∀ obj uerr,
    OpUpdate obj uerr
      ∉ (ensureIngressDeleted Fake.collaborators (Fake.default_ic true)
           (Fake.start (Fake.faulty Fake.cluster_with_default 1 false false false))).2.
Proof.
  assert (OpCurrentWildcardDNSRecord (Some {| dnsrecord_Name := "default-wildcard" |}, None)
    ∈ (ensureIngressDeleted Fake.collaborators (Fake.default_ic true)
         (Fake.start (Fake.faulty Fake.cluster_with_default 1 false false false))).2) as Hin.
  { apply (list_elem_of_lookup_2 _ 2). vm_compute. reflexivity. }
  destruct (ensureIngressDeleted_waits_for_dnsrecord Fake.collaborators
              (Fake.default_ic true)
              (Fake.start (Fake.faulty Fake.cluster_with_default 1 false false false)))
    as (_ & Hkeep & Hwait & _).
  split; [exact Hin|]. split.
  - exact (proj1 (Hwait _ Hin)).
  - exact (Hkeep _ _ Hin).
Defined.

(** The deployment of [default] cannot be ensured: the pass stops there,
    and the remaining branches are not attempted. *)
Lemma ensureIngressController_continues_counterexample :
  OpEnsureRouterDeployment (inl (ErrorString "quota exceeded"))
    ∈ (ensureIngressController Fake.collaborators (Fake.default_ic false)
         {| dns_BaseDomain := "example.com" |} {| infra_Platform := AWSPlatformType |}
         {| ingresscfg_Domain := "apps.example.com" |}
         (Fake.start (Fake.faulty Fake.cluster_with_default 0 false false true))).2 ∧
  ¬ attempts_remaining_branches
      (ensureIngressController Fake.collaborators (Fake.default_ic false)
         {| dns_BaseDomain := "example.com" |} {| infra_Platform := AWSPlatformType |}
         {| ingresscfg_Domain := "apps.example.com" |}
         (Fake.start (Fake.faulty Fake.cluster_with_default 0 false false true))).2.
Proof.
  assert ((ensureIngressController Fake.collaborators (Fake.default_ic false)
             {| dns_BaseDomain := "example.com" |} {| infra_Platform := AWSPlatformType |}
             {| ingresscfg_Domain := "apps.example.com" |}
             (Fake.start (Fake.faulty Fake.cluster_with_default 0 false false true))).2
          = [OpEnsureRouterNamespace None;
             OpEnsureRouterDeployment (inl (ErrorString "quota exceeded"))]) as ->
    by (vm_compute; reflexivity).
  split.
  - apply elem_of_cons. right. apply elem_of_cons. by left.
  - intros [[got H] _]. elem_of_ops H.
Qed.

(** The same run: the failure is what the pass returns, and the failed
    call is its last. *)
Lemma ensureIngressController_stops_without_deployment_witness :
  OpEnsureRouterDeployment (inl (ErrorString "quota exceeded"))
    ∈ (ensureIngressController Fake.collaborators (Fake.default_ic false)
         {| dns_BaseDomain := "example.com" |} {| infra_Platform := AWSPlatformType |}
         {| ingresscfg_Domain := "apps.example.com" |}
         (Fake.start (Fake.faulty Fake.cluster_with_default 0 false false true))).2 ∧
  (ensureIngressController Fake.collaborators (Fake.default_ic false)
     {| dns_BaseDomain := "example.com" |} {| infra_Platform := AWSPlatformType |}
     {| ingresscfg_Domain := "apps.example.com" |}
     (Fake.start (Fake.faulty Fake.cluster_with_default 0 false false true))).1.1
  = Some (ErrorString "failed to ensure deployment: quota exceeded").
Proof.
  assert (OpEnsureRouterDeployment (inl (ErrorString "quota exceeded"))
    ∈ (ensureIngressController Fake.collaborators (Fake.default_ic false)
         {| dns_BaseDomain := "example.com" |} {| infra_Platform := AWSPlatformType |}
         {| ingresscfg_Domain := "apps.example.com" |}
         (Fake.start (Fake.faulty Fake.cluster_with_default 0 false false true))).2) as Hin.
  { apply (list_elem_of_lookup_2 _ 1). vm_compute. reflexivity. }
  split; [exact Hin|].
  exact (proj1 (ensureIngressController_stops_without_deployment Fake.collaborators
                  (Fake.default_ic false) _ _ _ _ _ Hin)).
Defined.

(** Scenario B: [second] asks for the domain that the admitted [default]
    holds, and is rejected with a reason that names [default]. *)
Lemma validate_rejects_exactly_witness :
  cache_List_IngressControllers Fake.collaborators (cfg_Namespace Fake.config)
    (cluster (Fake.start Fake.cluster_with_default))
  = (inr [Fake.default_ic false], Fake.cluster_with_default) ∧
  ∃ Reason,
    (validate Fake.collaborators Fake.config Fake.second_ic_defaulted
       (Fake.start Fake.cluster_with_default)).1.1
    = Some (admissionRejection Reason) ∧
    substring_of "default" Reason.
Proof.
  split; [reflexivity|].
  destruct (validate_rejects_exactly Fake.collaborators Fake.config
              Fake.second_ic_defaulted (Fake.start Fake.cluster_with_default)
              [Fake.default_ic false] Fake.cluster_with_default eq_refl)
    as (_ & _ & Hname & _).
  destruct Hname as (other & Reason & Hin & _ & Hv & Hsub).
  { exists (Fake.default_ic false). split; [by left|].
    split_and!; [reflexivity|discriminate|reflexivity]. }
  apply list_elem_of_singleton in Hin as ->. by exists Reason.
Defined.

(** The spec of [default] now asks for another domain; the status that
    [admit] writes still holds the domain it had. *)
Lemma admit_keeps_status_domain_witness :
  status_Domain (Status Fake.edited_ic) ≠ "" ∧
  (∃ obj,
     (reconciler_admit Fake.collaborators Fake.config Fake.edited_ic
        {| ingresscfg_Domain := "apps.example.com" |}
        {| infra_Platform := AWSPlatformType |} (Fake.start Fake.cluster0)).2 !! 1
     = Some (OpStatusUpdate obj None)) ∧
  ∀ obj err,
    OpStatusUpdate obj err
      ∈ (reconciler_admit Fake.collaborators Fake.config Fake.edited_ic
           {| ingresscfg_Domain := "apps.example.com" |}
           {| infra_Platform := AWSPlatformType |} (Fake.start Fake.cluster0)).2 →
    status_Domain (Status obj) = "apps.example.com".
Proof.
  split; [discriminate|]. split.
  - eexists. vm_compute. reflexivity.
  - apply (admit_keeps_status_domain Fake.collaborators Fake.config Fake.edited_ic).
    discriminate.
Defined.

(** The cache cannot list: [admit] returns that and writes nothing. *)
Lemma admit_leaves_caller_record_witness :
  (cache_List_IngressControllers Fake.collaborators (cfg_Namespace Fake.config)
     (Fake.faulty Fake.cluster0 0 true false false)).1
  = inl (ErrorString "cache not started") ∧
  (reconciler_admit Fake.collaborators Fake.config Fake.second_ic
     {| ingresscfg_Domain := "apps.example.com" |}
     {| infra_Platform := AWSPlatformType |}
     (Fake.start (Fake.faulty Fake.cluster0 0 true false false))).1.1
  = Some (ErrorString "failed to list ingresscontrollers: cache not started") ∧
  (reconciler_admit Fake.collaborators Fake.config Fake.second_ic
     {| ingresscfg_Domain := "apps.example.com" |}
     {| infra_Platform := AWSPlatformType |}
     (Fake.start (Fake.faulty Fake.cluster0 0 true false false))).2
  = [OpListIngressControllers "openshift-ingress-operator"
       (inl (ErrorString "cache not started"))].
Proof.
  split; [reflexivity|].
  destruct (admit_leaves_caller_record Fake.collaborators Fake.config Fake.second_ic
              {| ingresscfg_Domain := "apps.example.com" |}
              {| infra_Platform := AWSPlatformType |}
              (Fake.start (Fake.faulty Fake.cluster0 0 true false false)))
    as (Hfail & _ & _).
  destruct (Hfail (ErrorString "cache not started") eq_refl) as (Hres & Hops & _).
  split; [exact Hres | exact Hops].
Defined.

(** The spec of [explicit] points to a load-balancer strategy without
    parameters: after defaulting, the spec reads differently. *)
Lemma setDefaultPublishingStrategy_writes_through_spec_pointer_witness :
  spec_EndpointPublishingStrategy (Spec Fake.explicit_ic) = Some 1%positive ∧
  heap Fake.explicit_state !! 1%positive
  = Some {| eps_Type := LoadBalancerServiceStrategyType; eps_LoadBalancer := None |} ∧
  Spec (resolve
          (heap (setDefaultPublishingStrategy Fake.explicit_ic
                   {| infra_Platform := AWSPlatformType |} Fake.explicit_state).1.2)
          Fake.explicit_ic)
  ≠ Spec (resolve (heap Fake.explicit_state) Fake.explicit_ic).
Proof.
  split; [reflexivity|]. split; [reflexivity|].
  destruct (setDefaultPublishingStrategy_writes_through_spec_pointer
              Fake.explicit_ic {| infra_Platform := AWSPlatformType |}
              Fake.explicit_state 1%positive
              {| eps_Type := LoadBalancerServiceStrategyType; eps_LoadBalancer := None |}
              eq_refl eq_refl eq_refl eq_refl)
    as (_ & _ & _ & Hchanged & _).
  exact Hchanged.
Defined.

(** [second] is reconciled while [default] holds its domain: the pass
    reaches admission, and ends with an empty result and no error. *)
Lemma Reconcile_outcomes_witness :
  reaches_admission Fake.collaborators (Fake.request "second")
    (Fake.start (Fake.put Fake.second_ic Fake.cluster_with_default))
    Fake.second_ic
    {| ingresscfg_Domain := "apps.example.com" |} {| infra_Platform := AWSPlatformType |}
    (Fake.start (Fake.put Fake.second_ic Fake.cluster_with_default))
    [OpGetIngressController (req_NamespacedName (Fake.request "second"))
       (inr Fake.second_ic);
     OpGetDNS "cluster" (inr {| dns_BaseDomain := "example.com" |});
     OpGetInfrastructure "cluster" (inr {| infra_Platform := AWSPlatformType |});
     OpGetIngress "cluster" (inr {| ingresscfg_Domain := "apps.example.com" |})] ∧
  (Reconcile Fake.collaborators Fake.config (Fake.request "second")
     (Fake.start (Fake.put Fake.second_ic Fake.cluster_with_default))).1.1
  = ({| Requeue := false |}, None).
Proof.
  assert (reaches_admission Fake.collaborators (Fake.request "second")
    (Fake.start (Fake.put Fake.second_ic Fake.cluster_with_default))
    Fake.second_ic
    {| ingresscfg_Domain := "apps.example.com" |} {| infra_Platform := AWSPlatformType |}
    (Fake.start (Fake.put Fake.second_ic Fake.cluster_with_default))
    [OpGetIngressController (req_NamespacedName (Fake.request "second"))
       (inr Fake.second_ic);
     OpGetDNS "cluster" (inr {| dns_BaseDomain := "example.com" |});
     OpGetInfrastructure "cluster" (inr {| infra_Platform := AWSPlatformType |});
     OpGetIngress "cluster" (inr {| ingresscfg_Domain := "apps.example.com" |})]) as Hreach.
  { exists Fake.second_ic, (Fake.put Fake.second_ic Fake.cluster_with_default),
      (Fake.start (Fake.put Fake.second_ic Fake.cluster_with_default)),
      {| dns_BaseDomain := "example.com" |},
      (Fake.put Fake.second_ic Fake.cluster_with_default),
      (Fake.put Fake.second_ic Fake.cluster_with_default),
      (Fake.put Fake.second_ic Fake.cluster_with_default).
    split_and!; reflexivity. }
  split; [exact Hreach|].
  destruct (Reconcile_outcomes Fake.collaborators Fake.config (Fake.request "second")
              (Fake.start (Fake.put Fake.second_ic Fake.cluster_with_default)))
    as [_ Hadmission].
  specialize (Hadmission _ _ _ _ _ Hreach). cbv zeta in Hadmission.
  destruct Hadmission as [_ Hout].
  assert ((reconciler_admit Fake.collaborators Fake.config Fake.second_ic
             {| ingresscfg_Domain := "apps.example.com" |}
             {| infra_Platform := AWSPlatformType |}
             (Fake.start (Fake.put Fake.second_ic Fake.cluster_with_default))).1.1
          = Some (admissionRejection "conflicts with: default")) as Hrej
    by (vm_compute; reflexivity).
  rewrite Hrej in Hout. exact (proj1 Hout).
Defined.


(** * Further properties of the controller *)

(** X1.  [isAdmitted]: a record counts as admitted exactly when some
    condition of its status has type [Admitted] and status [True]; the order
    of the conditions does not matter. *)
Theorem isAdmitted_iff_some_condition {P} (ic : IngressControllerOf P) :
  (isAdmitted ic = true ↔
     ∃ cond, cond ∈ status_Conditions (Status ic) ∧
             cond_Type cond = IngressControllerAdmittedConditionType ∧
             cond_Status cond = ConditionTrue) ∧
  (∀ (other : IngressControllerOf P),
     status_Conditions (Status other) ≡ₚ status_Conditions (Status ic) →
     isAdmitted other = isAdmitted ic).
Proof.
  assert (∀ conds, isAdmitted_conditions conds = true ↔
            ∃ cond, cond ∈ conds ∧
                    cond_Type cond = IngressControllerAdmittedConditionType ∧
                    cond_Status cond = ConditionTrue) as Hiff.
  { induction conds as [|c rest IH]; simpl.
    - split; [done|]. intros (c & Hin & _). by apply elem_of_nil in Hin.
    - destruct (bool_decide (cond_Type c = _)) eqn:Hty; simpl.
      + destruct (bool_decide (cond_Status c = _)) eqn:Hst.
        * apply bool_decide_eq_true in Hty, Hst. split; [|done].
          intros _. exists c. split; [by left|done].
        * apply bool_decide_eq_false in Hst. rewrite IH. split.
          -- intros (c' & ? & ?). exists c'. split; [by right|done].
          -- intros (c' & [->|?]%elem_of_cons & ? & ?); [done|]. by exists c'.
      + apply bool_decide_eq_false in Hty. rewrite IH. split.
        * intros (c' & ? & ?). exists c'. split; [by right|done].
        * intros (c' & [->|?]%elem_of_cons & ? & ?); [done|]. by exists c'. }
  split; [apply Hiff|].
  intros other Hperm. unfold isAdmitted.
  destruct (isAdmitted_conditions (status_Conditions (Status ic))) eqn:Hic.
  - apply Hiff. apply Hiff in Hic as (c & Hin & ?). exists c.
    split; [by rewrite Hperm|done].
  - destruct (isAdmitted_conditions (status_Conditions (Status other))) eqn:Hother;
      [|done].
    apply Hiff in Hother as (c & Hin & ?). rewrite Hperm in Hin.
    rewrite <- Hic. symmetry. apply Hiff. by exists c.
Qed.

Lemma length_pos_iff_nonempty (s : string) : 0 < String.length s ↔ s ≠ "".
Proof. destruct s; simpl; split; intros H; try done; lia. Qed.

(** [setDefaultDomain], with the tests on lengths read as tests on the
    strings. *)
Lemma setDefaultDomain_eq {P} (ic : IngressControllerOf P) (ingressConfig : IngressConfig) :
  setDefaultDomain ic ingressConfig =
    if bool_decide (status_Domain (Status ic) = "") then
      (set_Status ic
         (set_status_Domain (Status ic)
            (if bool_decide (spec_Domain (Spec ic) = "")
             then ingresscfg_Domain ingressConfig else spec_Domain (Spec ic))),
       true)
    else (ic, false).
Proof.
  unfold setDefaultDomain.
  destruct (decide (status_Domain (Status ic) = "")) as [Hst|Hst].
  - rewrite (bool_decide_eq_true_2 (status_Domain (Status ic) = "")) by done.
    rewrite (bool_decide_eq_true_2 (String.length _ = 0))
      by by apply length_zero_iff_empty.
    destruct (decide (spec_Domain (Spec ic) = "")) as [Hsp|Hsp].
    + rewrite (bool_decide_eq_true_2 (spec_Domain (Spec ic) = "")) by done.
      rewrite (bool_decide_eq_false_2 (0 < _)); [done|].
      rewrite Hsp. simpl. lia.
    + rewrite (bool_decide_eq_false_2 (spec_Domain (Spec ic) = "")) by done.
      rewrite (bool_decide_eq_true_2 (0 < _)); [done|].
      by apply length_pos_iff_nonempty.
  - rewrite (bool_decide_eq_false_2 (status_Domain (Status ic) = "")) by done.
    rewrite (bool_decide_eq_false_2 (String.length _ = 0)); [done|].
    by rewrite length_zero_iff_empty.
Qed.

Lemma validateDomain_eq {P} (ic : IngressControllerOf P) :
  validateDomain ic =
    if bool_decide (status_Domain (Status ic) = "")
    then Some (ErrorString "domain is required") else None.
Proof.
  unfold validateDomain.
  destruct (decide (status_Domain (Status ic) = "")) as [Hst|Hst].
  - rewrite (bool_decide_eq_true_2 (status_Domain (Status ic) = "")) by done.
    by rewrite bool_decide_eq_true_2 by by apply length_zero_iff_empty.
  - rewrite (bool_decide_eq_false_2 (status_Domain (Status ic) = "")) by done.
    by rewrite bool_decide_eq_false_2 by by rewrite length_zero_iff_empty.
Qed.

(** X2.  [setDefaultDomain]: the boolean it returns says whether the
    status domain was empty (not whether its value changed); the status
    domain is kept if set, else taken from the spec, else from the cluster
    ingress configuration; no other field of the record is assigned; and a
    second call leaves the record of the first as it is. *)
Theorem setDefaultDomain_idempotent {P} (ic : IngressControllerOf P)
    (ingressConfig : IngressConfig) :
  let once := setDefaultDomain ic ingressConfig in
  (* the result says whether the status domain was empty, not whether
     anything changed *)
  (once.2 = true ↔ status_Domain (Status ic) = "") ∧
  (* the domain comes from the status, else from the spec, else from the
     cluster *)
  status_Domain (Status once.1) =
    (if bool_decide (status_Domain (Status ic) = "") then
       if bool_decide (spec_Domain (Spec ic) = "")
       then ingresscfg_Domain ingressConfig else spec_Domain (Spec ic)
     else status_Domain (Status ic)) ∧
  (* nothing but the status domain is assigned *)
  set_Status once.1 (set_status_Domain (Status once.1) (status_Domain (Status ic))) = ic ∧
  (* and a second call finds nothing to do *)
  (setDefaultDomain once.1 ingressConfig).1 = once.1.
Proof.
  intros once. subst once. rewrite (setDefaultDomain_eq ic).
  destruct (decide (status_Domain (Status ic) = "")) as [Hst|Hst].
  - rewrite (bool_decide_eq_true_2 _ Hst). simpl. split_and!; try done.
    + destruct ic as [n ns u d f sp [a sl dom eps cs]]; simpl in *. by subst.
    + rewrite setDefaultDomain_eq. simpl.
      destruct (bool_decide (_ = "")) eqn:Hd; [|done].
      apply bool_decide_eq_true in Hd. by rewrite Hd.
  - rewrite (bool_decide_eq_false_2 _ Hst). simpl. split_and!; try done.
    + by destruct ic as [n ns u d f sp [a sl dom eps cs]].
    + by rewrite setDefaultDomain_eq, bool_decide_eq_false_2.
Qed.

(** X3.  After [setDefaultDomain], [validateDomain] passes exactly when
    the status, the spec or the cluster configuration names a domain; its
    only error is [domain is required]; and [IsStatusDomainSet] holds
    exactly when [validateDomain] passes. *)
Theorem domain_is_required_only_without_any_domain {P} (ic : IngressControllerOf P)
    (ingressConfig : IngressConfig) :
  (validateDomain (setDefaultDomain ic ingressConfig).1 = None ↔
     status_Domain (Status ic) ≠ "" ∨ spec_Domain (Spec ic) ≠ "" ∨
     ingresscfg_Domain ingressConfig ≠ "") ∧
  (validateDomain (setDefaultDomain ic ingressConfig).1 = None ∨
   validateDomain (setDefaultDomain ic ingressConfig).1
     = Some (ErrorString "domain is required")) ∧
  (IsStatusDomainSet ic = true ↔ validateDomain ic = None).
Proof.
  rewrite !validateDomain_eq, setDefaultDomain_eq.
  split_and!.
  - destruct (decide (status_Domain (Status ic) = "")) as [Hst|Hst].
    + rewrite (bool_decide_eq_true_2 _ Hst). simpl.
      destruct (decide (spec_Domain (Spec ic) = "")) as [Hsp|Hsp].
      * rewrite (bool_decide_eq_true_2 _ Hsp).
        case_bool_decide; split; try done; naive_solver.
      * rewrite (bool_decide_eq_false_2 _ Hsp).
        rewrite (bool_decide_eq_false_2 _ Hsp). naive_solver.
    + rewrite (bool_decide_eq_false_2 _ Hst). simpl.
      rewrite (bool_decide_eq_false_2 _ Hst). naive_solver.
  - destruct (bool_decide _); [by right|by left].
  - unfold IsStatusDomainSet.
    destruct (decide (status_Domain (Status ic) = "")) as [Hst|Hst].
    + rewrite (bool_decide_eq_true_2 (status_Domain (Status ic) = "")) by done.
      by rewrite bool_decide_eq_true_2 by by apply length_zero_iff_empty.
    + rewrite (bool_decide_eq_false_2 (status_Domain (Status ic) = "")) by done.
      by rewrite bool_decide_eq_false_2 by by rewrite length_zero_iff_empty.
Qed.

Lemma conflictsb_true {P Q} (desired : IngressControllerOf P)
    (other : IngressControllerOf Q) :
  conflictsb desired other = true ↔ conflicts desired other.
Proof.
  unfold conflictsb, conflicts.
  rewrite !andb_true_iff, !bool_decide_eq_true. tauto.
Qed.

(** X4.  [validateDomainUniqueness] reports the first record of the
    list, in list order, that is admitted, has another UID and holds the same
    status domain, as [conflicts with: NAME]; later conflicts are not
    reported, and the result is nil when there is none. *)
Theorem validateDomainUniqueness_first_conflict {P Q} (desired : IngressControllerOf P)
    (existing : list (IngressControllerOf Q)) :
  validateDomainUniqueness desired existing =
    (λ other, ErrorString ("conflicts with: " +:+ Name other))
      <$> head (filter (λ other, conflictsb desired other) existing) ∧
  (∀ other : IngressControllerOf Q, conflictsb desired other = true ↔
     isAdmitted other = true ∧ UID desired ≠ UID other ∧
     status_Domain (Status desired) = status_Domain (Status other)).
Proof.
  split; [|apply conflictsb_true].
  induction existing as [|current rest IH]; simpl; [done|].
  rewrite filter_cons.
  destruct (conflictsb desired current) eqn:Hc.
  - rewrite decide_True by exact I. simpl.
    unfold conflictsb in Hc. apply andb_true_iff in Hc as [Hc Hdom].
    apply andb_true_iff in Hc as [Hadm Huid].
    rewrite Hadm, Huid, Hdom. reflexivity.
  - rewrite decide_False by (by intros []). rewrite <- IH.
    unfold conflictsb in Hc.
    destruct (isAdmitted current); simpl in *; [|reflexivity].
    rewrite Hc. reflexivity.
Qed.

Section strategy.
Context {X : Type}.

Lemma defaultStrategyParameters_idempotent (e : EndpointPublishingStrategy) :
  defaultStrategyParameters (defaultStrategyParameters e) = defaultStrategyParameters e.
Proof.
  rewrite !defaultStrategyParameters_eq.
  destruct (bool_decide (eps_Type e = _ ∧ eps_LoadBalancer e = None)) eqn:He; [|by rewrite He].
  by rewrite bool_decide_eq_false_2 by (by intros [_ ?]).
Qed.

Lemma defaultStrategyParameters_type (e : EndpointPublishingStrategy) :
  eps_Type (defaultStrategyParameters e) = eps_Type e.
Proof.
  rewrite defaultStrategyParameters_eq. case_bool_decide as He; [|done].
  by destruct He as [-> _].
Qed.

(** X5.  [setDefaultPublishingStrategy] keeps every object in memory in
    place, with its type: the only object it may change is the one the spec
    points to, and only when that is a load-balancer strategy without
    parameters; the spec of the record, its status domain and its conditions
    are as they were. *)
Theorem setDefaultPublishingStrategy_touches_only_unset_parameters
    (ic : IngressController) (infraConfig : Infrastructure) (s : State X) :
  let out := setDefaultPublishingStrategy ic infraConfig s in
  (∀ l e, heap s !! l = Some e →
     ∃ e', heap out.1.2 !! l = Some e' ∧
           eps_Type e' = eps_Type e ∧
           (spec_EndpointPublishingStrategy (Spec ic) ≠ Some l → e' = e) ∧
           (eps_Type e ≠ LoadBalancerServiceStrategyType → e' = e) ∧
           (∀ lb, eps_LoadBalancer e = Some lb → e' = e)) ∧
  Spec out.1.1.1 = Spec ic ∧
  status_Domain (Status out.1.1.1) = status_Domain (Status ic) ∧
  status_Conditions (Status out.1.1.1) = status_Conditions (Status ic).
Proof.
  intros out. subst out. rewrite setDefaultPublishingStrategy_run. cbv zeta. split.
  - intros l e Hl. simpl.
    destruct (spec_EndpointPublishingStrategy (Spec ic)) as [l0|] eqn:Hspec; simpl.
    + destruct (decide (l0 = l)) as [->|Hne].
      * exists (defaultStrategyParameters e).
        rewrite lookup_alter_eq, Hl. simpl.
        split_and!; [done|apply defaultStrategyParameters_type|done|..].
        -- intros Hty. rewrite defaultStrategyParameters_eq.
           by rewrite bool_decide_eq_false_2 by (by intros [? _]).
        -- intros lb Hlb. rewrite defaultStrategyParameters_eq.
           rewrite bool_decide_eq_false_2; [done|]. intros [_ ?]. congruence.
      * exists e. rewrite lookup_alter_ne by done. by split_and!.
    + exists e. rewrite lookup_insert_ne; [by split_and!|].
      intros <-. by rewrite fresh_loc_unused in Hl.
  - by destruct (status_EndpointPublishingStrategy (Status ic)).
Qed.

(** X6.  [setDefaultPublishingStrategy] is idempotent: after a first call
    the status has a strategy, and a second call, for any infrastructure,
    returns the same record with [false] and changes no object. *)
Theorem setDefaultPublishingStrategy_idempotent
    (ic : IngressController) (infraConfig infraConfig' : Infrastructure) (s : State X) :
  let once := setDefaultPublishingStrategy ic infraConfig s in
  let twice := setDefaultPublishingStrategy once.1.1.1 infraConfig' once.1.2 in
  is_Some (status_EndpointPublishingStrategy (Status once.1.1.1)) ∧
  twice.1.1 = (once.1.1.1, false) ∧
  heap once.1.2 ⊆ heap twice.1.2.
Proof.
  intros once twice. subst once twice.
  rewrite (setDefaultPublishingStrategy_run ic). cbv zeta. simpl.
  rewrite setDefaultPublishingStrategy_run. cbv zeta. simpl.
  destruct (status_EndpointPublishingStrategy (Status ic)) as [st|] eqn:Hst; simpl.
  - rewrite Hst. split_and!; [eauto|done|].
    destruct (spec_EndpointPublishingStrategy (Spec ic)) as [l0|] eqn:Hspec; simpl.
    + apply map_subseteq_spec. intros l e.
      destruct (decide (l0 = l)) as [->|Hne].
      * rewrite !lookup_alter_eq. destruct (heap s !! l); simpl; [|done].
        intros [= <-]. by rewrite defaultStrategyParameters_idempotent.
      * by rewrite !lookup_alter_ne.
    + apply insert_subseteq, fresh_loc_unused.
  - split_and!; [eauto|done|].
    destruct (spec_EndpointPublishingStrategy (Spec ic)) as [l0|] eqn:Hspec; simpl.
    + apply map_subseteq_spec. intros l e.
      destruct (decide (l0 = l)) as [->|Hne].
      * rewrite !lookup_alter_eq. destruct (heap s !! l); simpl; [|done].
        intros [= <-]. by rewrite defaultStrategyParameters_idempotent.
      * by rewrite !lookup_alter_ne.
    + apply insert_subseteq, fresh_loc_unused.
Qed.

(** X7.  [setDefaultPublishingStrategy] on a record without a status
    strategy, whose spec pointer (if any) is valid: the status strategy then
    has the type the spec asks for, else the platform's default; for the
    load-balancer type it has the scope asked for, else the external one; for
    another type no parameters are invented. *)
Theorem setDefaultPublishingStrategy_status_has_parameters
    (ic : IngressController) (infraConfig : Infrastructure) (s : State X) :
  (∀ l, spec_EndpointPublishingStrategy (Spec ic) = Some l → is_Some (heap s !! l)) →
  status_EndpointPublishingStrategy (Status ic) = None →
  let out := setDefaultPublishingStrategy ic infraConfig s in
  ∃ e,
    deref (heap out.1.2) (status_EndpointPublishingStrategy (Status out.1.1.1)) = Some e ∧
    (* the type asked for, else the platform's *)
    eps_Type e =
      match deref (heap s) (spec_EndpointPublishingStrategy (Spec ic)) with
      | Some asked => eps_Type asked
      | None => defaultStrategyType (infra_Platform infraConfig)
      end ∧
    (* the scope asked for, else the external one *)
    (eps_Type e = LoadBalancerServiceStrategyType →
     eps_LoadBalancer e =
       match deref (heap s) (spec_EndpointPublishingStrategy (Spec ic)) with
       | Some {| eps_LoadBalancer := Some lb |} => Some lb
       | _ => Some {| lb_Scope := ExternalLoadBalancer |}
       end) ∧
    (* and no parameters are invented for another type *)
    (eps_Type e ≠ LoadBalancerServiceStrategyType →
     eps_LoadBalancer e =
       match deref (heap s) (spec_EndpointPublishingStrategy (Spec ic)) with
       | Some asked => eps_LoadBalancer asked
       | None => None
       end).
Proof.
  intros Hvalid Hst out. subst out.
  rewrite setDefaultPublishingStrategy_run. cbv zeta. rewrite Hst. simpl.
  destruct (spec_EndpointPublishingStrategy (Spec ic)) as [l0|] eqn:Hspec; simpl.
  - destruct (Hvalid l0 eq_refl) as [asked Hasked]. rewrite Hasked.
    exists (defaultStrategyParameters asked).
    rewrite lookup_alter_eq, Hasked. simpl.
    split_and!; [done|apply defaultStrategyParameters_type|..].
    + rewrite defaultStrategyParameters_type. intros Hty.
      rewrite defaultStrategyParameters_eq.
      destruct asked as [ty [lb|]]; simpl in *.
      * by rewrite bool_decide_eq_false_2 by (by intros [_ ?]).
      * by rewrite bool_decide_eq_true_2.
    + rewrite defaultStrategyParameters_type. intros Hty.
      rewrite defaultStrategyParameters_eq.
      by rewrite bool_decide_eq_false_2 by (by intros [? _]).
  - eexists. rewrite lookup_insert_eq. split; [done|].
    rewrite defaultStrategyParameters_type. simpl. split; [done|].
    rewrite !defaultStrategyParameters_eq. simpl. split.
    + intros Hty. by rewrite bool_decide_eq_true_2.
    + intros Hty. by rewrite bool_decide_eq_false_2 by (by intros [? _]).
Qed.

End strategy.

Section admission_outcomes.
Context {X : Type} (r : Collaborators X) (config : Config).

(** X8.  The outcomes of [admit]: nil exactly when the defaulted record
    is valid against the listed records and every call succeeded; an
    admission rejection exactly when it is invalid and every call succeeded,
    the reason being the validation message; a failed status update or
    listing is what is returned, whatever the verdict. *)
Theorem admit_outcomes (current : IngressController)
    (ingressConfig : IngressConfig) (infraConfig : Infrastructure) (s : State X) :
  let out := reconciler_admit r config current ingressConfig infraConfig s in
  let listed := cache_List_IngressControllers r (cfg_Namespace config) (cluster s) in
  let defaulted := (setDefaultDomain current ingressConfig).1 in
  (* nil: the record is valid and every call succeeded *)
  (out.1.1 = None ↔
     (∃ Items, listed.1 = inr Items ∧ verdict_on defaulted Items = None) ∧
     Forall (λ op, op_error op = None) out.2) ∧
  (* a rejection: the record is invalid and every call succeeded *)
  (∀ Reason, out.1.1 = Some (admissionRejection Reason) ↔
     (∃ Items err, listed.1 = inr Items ∧ verdict_on defaulted Items = Some err ∧
                   Reason = Error err) ∧
     Forall (λ op, op_error op = None) out.2) ∧
  (* a failed call is what is returned, whatever the verdict *)
  (∀ obj uerr, OpStatusUpdate obj (Some uerr) ∈ out.2 →
     out.1.1 = Some (Errorf "failed to update status" uerr)) ∧
  (∀ ns lerr, OpListIngressControllers ns (inl lerr) ∈ out.2 →
     out.1.1 = Some (Errorf "failed to list ingresscontrollers" lerr)).
Proof.
  intros out listed defaulted. subst out listed defaulted.
  destruct (admit_run r config current ingressConfig infraConfig s)
    as (computed & _ & _ & Huid & Hdom & Hout). cbv zeta in Hout.
  destruct (cache_List_IngressControllers r (cfg_Namespace config) (cluster s))
    as [[lerr|Items] x1]; simpl in *.
  - rewrite Hout. simpl. split_and!.
    + split; [done|]. by intros [(? & ? & _) _].
    + intros R. split; [done|]. by intros [(? & ? & ? & _) _].
    + intros obj uerr H. elem_of_ops H.
    + intros ns e H. elem_of_ops H. by injection H as _ <-.
  - destruct Hout as [_ Hout].
    assert (verdict_on computed Items
            = verdict_on (setDefaultDomain current ingressConfig).1 Items) as Hv.
    { apply verdict_on_ext; [|done].
      rewrite Huid. by destruct (setDefaultDomain_frame current ingressConfig) as (_ & -> & _). }
    rewrite Hv in Hout.
    destruct (verdict_on (setDefaultDomain current ingressConfig).1 Items)
      as [verr|] eqn:Hverdict;
      destruct (ingressStatusesEqual r _ _);
      try destruct (client_Status_Update r computed x1) as [[uerr|] x2];
      simpl in Hout; rewrite Hout; simpl.
    all: split; [|split; [|split]].
    all: try (intros obj e H; elem_of_ops H; by injection H as _ <-).
    all: try (intros ns e H; by elem_of_ops H).
    all: try intros Reason.
    all: split;
      [ intros Hres; try discriminate Hres; try injection Hres as <-;
        (split; [by eauto|by repeat constructor])
      | intros [Hvalid Hall];
        repeat (apply Forall_cons in Hall as [? Hall]); try discriminate;
        first [ destruct Hvalid as (Items0 & err0 & HI & HV & ->)
              | destruct Hvalid as (Items0 & HI & HV) ];
        simplify_eq; congruence ].
Qed.

(** X9.  When the status, the spec or the cluster configuration names a
    domain, [admit] rejects only for a conflict: the reason is
    [conflicts with: NAME] for a listed record that is admitted, has another
    UID and holds the domain the record gets. *)
Theorem admit_rejects_only_conflicts_when_a_domain_is_known
    (current : IngressController) (ingressConfig : IngressConfig)
    (infraConfig : Infrastructure) (s : State X) :
  status_Domain (Status current) ≠ "" ∨ spec_Domain (Spec current) ≠ "" ∨
    ingresscfg_Domain ingressConfig ≠ "" →
  ∀ Reason,
    (reconciler_admit r config current ingressConfig infraConfig s).1.1
      = Some (admissionRejection Reason) →
    ∃ Items other,
      (cache_List_IngressControllers r (cfg_Namespace config) (cluster s)).1 = inr Items ∧
      other ∈ Items ∧
      conflicts (setDefaultDomain current ingressConfig).1 other ∧
      Reason = "conflicts with: " +:+ Name other.
Proof.
  intros Hknown Reason.
  destruct (admit_run r config current ingressConfig infraConfig s)
    as (computed & _ & _ & Huid & Hdom & Hout). cbv zeta in Hout.
  assert (status_Domain (Status computed) ≠ "") as Hset.
  { rewrite Hdom, setDefaultDomain_eq.
    destruct (decide (status_Domain (Status current) = "")) as [Hst|Hst].
    - rewrite (bool_decide_eq_true_2 _ Hst). simpl.
      destruct (decide (spec_Domain (Spec current) = "")) as [Hsp|Hsp].
      + rewrite (bool_decide_eq_true_2 _ Hsp). naive_solver.
      + by rewrite (bool_decide_eq_false_2 _ Hsp).
    - by rewrite (bool_decide_eq_false_2 _ Hst). }
  assert (∀ (Items : list IngressControllerObject) R,
            rejection (verdict_on computed Items) = Some (admissionRejection R) →
            ∃ other, other ∈ Items ∧
                     conflicts (setDefaultDomain current ingressConfig).1 other ∧
                     R = "conflicts with: " +:+ Name other) as Hrej.
  { intros Items R. unfold verdict_on. rewrite validateDomain_eq.
    rewrite (bool_decide_eq_false_2 _ Hset). simpl.
    destruct (validateDomainUniqueness computed Items) as [uerr|] eqn:Huniq; [|done].
    apply validateDomainUniqueness_Some in Huniq as (other & Hin & Hc & ->).
    simpl. intros [= <-]. exists other. split_and!; [done| |done].
    destruct Hc as (Hadm & Hne & Heq). split_and!; [done|..].
    - destruct (setDefaultDomain_frame current ingressConfig) as (_ & -> & _).
      by rewrite <- Huid.
    - by rewrite <- Hdom. }
  destruct (cache_List_IngressControllers r (cfg_Namespace config) (cluster s))
    as [[lerr|Items] x1]; simpl in *.
  - by rewrite Hout.
  - destruct Hout as [_ Hout].
    destruct (ingressStatusesEqual r _ _);
      try destruct (client_Status_Update r computed x1) as [[uerr|] x2];
      simpl in Hout; rewrite Hout; simpl; try done.
    all: intros (other & ?)%Hrej; by exists Items, other.
Qed.

End admission_outcomes.

(** Every path of a deletion pass, with the log and the result written out:
    [Hrun] is the equation of [ensureIngressDeleted_run] on that path. *)
Ltac deletion_paths r ingress s Hrun :=
  pose proof (ensureIngressDeleted_run r ingress s) as Hrun; cbv zeta in Hrun;
  destruct (finalizeLoadBalancerService r _ _) as [[?|] ?]; simpl in Hrun;
  destruct (deleteWildcardDNSRecord r _ _) as [[?|] ?]; simpl in Hrun;
  destruct (currentWildcardDNSRecord r _ _) as [[[?|] [?|]] ?]; simpl in Hrun;
  try (destruct (ensureRouterDeleted r _ _) as [[?|] ?]; simpl in Hrun);
  unfold deletion_errors in Hrun; simpl in Hrun;
  rewrite ?length_zero_match in Hrun; simpl in Hrun;
  try (destruct (slice_ContainsString r _ _) eqn:?; simpl in Hrun);
  try (destruct Hrun as (?sent & ?h' & ?Hfin & Hrun); simpl in Hrun;
       destruct (client_Update r _ _) as [[?|] ?]; simpl in Hrun);
  rewrite Hrun; simpl.

Section deletion_more.
Context {X : Type} (r : Collaborators X).

(** X10.  [ensureIngressDeleted] removes the finalizer (client.Update)
    only from a record that has it, at the end of a pass whose every other
    call succeeded; the update is then the last call of the pass and its
    failure the only error returned. *)
Theorem ensureIngressDeleted_error_keeps_finalizer (ingress : IngressController)
    (s : State X) :
  let out := ensureIngressDeleted r ingress s in
  ∀ obj uerr,
    OpUpdate obj uerr ∈ out.2 →
    (∀ op, op ∈ out.2 → op ≠ OpUpdate obj uerr → op_error op = None) ∧
    slice_ContainsString r (Finalizers ingress) IngressControllerFinalizer = true ∧
    last out.2 = Some (OpUpdate obj uerr) ∧
    out.1.1 =
      NewAggregate
        (append_error []
           (wrap ("failed to remove finalizer from ingresscontroller " +:+ Name ingress)
                 uerr)).
Proof.
  intros out obj uerr. subst out.
  deletion_paths r ingress s Hrun.
  all: intros H; elem_of_ops H; simplify_eq.
  all: split_and!; try done.
  all: intros op Hop Hne; elem_of_ops Hop; by subst.
Qed.

(** X11.  [ensureIngressDeleted] and the read of the wildcard DNS
    record: when the read fails, the deployment is deleted all the same, as
    the last call of the pass, and the failure is in the returned aggregate;
    when the read finds the record, the deployment is left alone; when it
    finds none, the deployment is deleted. *)
Theorem ensureIngressDeleted_failed_read_still_deletes_deployment
    (ingress : IngressController) (s : State X) :
  let out := ensureIngressDeleted r ingress s in
  (* the read fails: the deployment is deleted all the same, the finalizer
     stays and the failure is reported *)
  (∀ record err,
     OpCurrentWildcardDNSRecord (record, Some err) ∈ out.2 →
     (∃ derr, last out.2 = Some (OpEnsureRouterDeleted derr)) ∧
     ∃ errs, out.1.1 = Some (Aggregate errs) ∧
             Errorf "failed to get current wildcard dnsrecord" err ∈ errs) ∧
  (* the read finds the record: the deployment is left alone *)
  (∀ record derr,
     OpCurrentWildcardDNSRecord (Some record, None) ∈ out.2 →
     OpEnsureRouterDeleted derr ∉ out.2) ∧
  (* the read finds nothing: the deployment is deleted *)
  (OpCurrentWildcardDNSRecord (None, None) ∈ out.2 →
   ∃ derr, OpEnsureRouterDeleted derr ∈ out.2).
Proof.
  intros out. subst out.
  deletion_paths r ingress s Hrun.
  all: split_and!.
  all: try (intros record err H; elem_of_ops H; simplify_eq;
            split; [by eexists|]; eexists; split; [done|];
            rewrite !elem_of_cons; by eauto 6).
  all: try (intros record derr H; elem_of_ops H; simplify_eq;
            intros H'; by elem_of_ops H').
  all: try (intros H; elem_of_ops H; eexists; rewrite !elem_of_cons; by eauto 6).
Qed.

(** X12.  [ensureIngressDeleted] returns nil exactly when the pass ended
    at a wildcard DNS record that is still there, or when every call of the
    pass succeeded. *)
Theorem ensureIngressDeleted_nil_iff (ingress : IngressController) (s : State X) :
  let out := ensureIngressDeleted r ingress s in
  out.1.1 = None ↔
    (∃ record, last out.2 = Some (OpCurrentWildcardDNSRecord (Some record, None))) ∨
    Forall (λ op, op_error op = None) out.2.
Proof.
  intros out. subst out.
  deletion_paths r ingress s Hrun.
  all: split;
    [ intros Hnil; try discriminate Hnil;
      first [ left; by eexists | right; by repeat constructor ]
    | intros [[record Hlast] | Hall];
      [ by simplify_eq
      | try done; repeat (apply Forall_cons in Hall as [? Hall]); by simplify_eq ] ].
Qed.

(** X13.  The calls of [ensureIngressDeleted]: only the deletion helpers
    and client.Update; the pass always starts with finalizing the
    load-balancer service, deleting the wildcard DNS record and reading it
    back, and makes at most five calls; a record without the finalizer is
    never updated, and its pass returns nil when every call succeeded. *)
Theorem ensureIngressDeleted_calls (ingress : IngressController) (s : State X) :
  let out := ensureIngressDeleted r ingress s in
  Forall deletion_op out.2 ∧
  (∃ e1 e2 got,
     take 3 out.2 = [OpFinalizeLoadBalancerService e1; OpDeleteWildcardDNSRecord e2;
                     OpCurrentWildcardDNSRecord got]) ∧
  length out.2 ≤ 5 ∧
  (slice_ContainsString r (Finalizers ingress) IngressControllerFinalizer = false →
   (∀ obj uerr, OpUpdate obj uerr ∉ out.2) ∧
   (Forall (λ op, op_error op = None) out.2 → out.1.1 = None)).
Proof.
  intros out. subst out.
  deletion_paths r ingress s Hrun.
  all: split_and!; [by repeat constructor|by eexists _, _, _|lia|].
  all: intros Hno; try discriminate Hno.
  all: split; [intros obj uerr H; by elem_of_ops H|].
  all: intros Hall; try done;
    repeat (apply Forall_cons in Hall as [? Hall]); by simplify_eq.
Qed.

End deletion_more.

(** Every path of [ensureIngressController_with_deployment], with the log and
    the result written out. *)
Ltac convergence_paths r :=
  unfold ensureIngressController_with_deployment, bind, call, get_heap, ret; simpl;
  destruct (ensureLoadBalancerService r _ _ _ _) as [[? [?|]] ?]; simpl;
  [|destruct (ensureWildcardDNSRecord r _ _ _) as [[? [?|]] ?]; simpl];
  (destruct (ensureInternalIngressControllerService r _ _ _) as [[? [?|]] ?]; simpl;
   [|destruct (ensureMetricsIntegration r _ _ _ _) as [[?|] ?]; simpl]);
  destruct (ensureRsyslogConfigMap r _ _ _ _) as [[?|] ?]; simpl;
  destruct (ensureRouterPodDisruptionBudget r _ _ _) as [[?|] ?]; simpl;
  destruct (cache_List_Events r _ _) as [[? [?|]] ?]; simpl;
  destruct (syncIngressControllerStatus r _ _ _ _ _ _ _) as [[?|] ?]; simpl.

(** The same, without telling the errors of the last four steps apart. *)
Ltac convergence_calls r :=
  unfold ensureIngressController_with_deployment, bind, call, get_heap, ret; simpl;
  destruct (ensureLoadBalancerService r _ _ _ _) as [[? [?|]] ?]; simpl;
  [|destruct (ensureWildcardDNSRecord r _ _ _) as [[? [?|]] ?]; simpl];
  (destruct (ensureInternalIngressControllerService r _ _ _) as [[? [?|]] ?]; simpl;
   [|destruct (ensureMetricsIntegration r _ _ _ _) as [? ?]; simpl]);
  destruct (ensureRsyslogConfigMap r _ _ _ _) as [? ?]; simpl;
  destruct (ensureRouterPodDisruptionBudget r _ _ _) as [? ?]; simpl;
  destruct (cache_List_Events r _ _) as [[? ?] ?]; simpl;
  destruct (syncIngressControllerStatus r _ _ _ _ _ _ _) as [? ?]; simpl.

Section convergence_more.
Context {X : Type} (r : Collaborators X).

Lemma ensureIngressController_with_deployment_result (ci : IngressController)
    (deployment : Deployment) (dnsConfig : DNSConfig) (infraConfig : Infrastructure)
    (ingressConfig : IngressConfig) (s : State X) :
  let t := ensureIngressController_with_deployment r ci deployment dnsConfig
             infraConfig ingressConfig s in
  t.1.1 = NewAggregate (omap (convergence_error (fmt_q r) (Name ci)) t.2).
Proof.
  cbv zeta. convergence_paths r. all: reflexivity.
Qed.

Lemma convergence_error_None (q : string → string) (name : string) (op : Op) :
  after_deployment op →
  convergence_error q name op = None ↔ op_error op = None.
Proof.
  destruct op as [| | | | | | |? [? [?|]]| |[?|]|[?|]|[? [?|]]|[?|]|[?|]|[?|?]
                 |[? [?|]]|[? [?|]]|[? [?|]]|[?|]|[?|]|[?|]|[?|]]; simpl; try done.
Qed.

Lemma ensureIngressController_with_deployment_nil (ci : IngressController)
    (deployment : Deployment) (dnsConfig : DNSConfig) (infraConfig : Infrastructure)
    (ingressConfig : IngressConfig) (s : State X) :
  let t := ensureIngressController_with_deployment r ci deployment dnsConfig
             infraConfig ingressConfig s in
  t.1.1 = None ↔ Forall (λ op, op_error op = None) t.2.
Proof.
  cbv zeta. rewrite ensureIngressController_with_deployment_result.
  pose proof (ensureIngressController_with_deployment_ops r ci deployment dnsConfig
                infraConfig ingressConfig s) as Hops.
  induction Hops as [|op ops Hop Hops IH]; simpl.
  - split; [by constructor|done].
  - rewrite Forall_cons, <- IH, <- (convergence_error_None (fmt_q r) (Name ci) op Hop).
    destruct (convergence_error _ _ op); simpl.
    + split; [done|]. by intros [? _].
    + tauto.
Qed.

Lemma ensureIngressController_with_deployment_shape (ci : IngressController)
    (deployment : Deployment) (dnsConfig : DNSConfig) (infraConfig : Infrastructure)
    (ingressConfig : IngressConfig) (s : State X) :
  let ops := (ensureIngressController_with_deployment r ci deployment dnsConfig
                infraConfig ingressConfig s).2 in
  (∃ lb, head ops = Some (OpEnsureLoadBalancerService lb)) ∧
  (∃ e1 e2 evs e3,
     drop (length ops - 4) ops =
       [OpEnsureRsyslogConfigMap e1; OpEnsureRouterPodDisruptionBudget e2;
        OpListEvents "openshift-ingress" evs; OpSyncIngressControllerStatus e3]) ∧
  (∀ lb err, OpEnsureLoadBalancerService (lb, Some err) ∈ ops →
     ∀ record, OpEnsureWildcardDNSRecord record ∉ ops) ∧
  (∀ lb, OpEnsureLoadBalancerService (lb, None) ∈ ops →
     ∃ record, OpEnsureWildcardDNSRecord record ∈ ops) ∧
  (∀ svc err, OpEnsureInternalIngressControllerService (svc, Some err) ∈ ops →
     ∀ merr, OpEnsureMetricsIntegration merr ∉ ops) ∧
  (∀ svc, OpEnsureInternalIngressControllerService (svc, None) ∈ ops →
     ∃ merr, OpEnsureMetricsIntegration merr ∈ ops).
Proof.
  cbv zeta. convergence_calls r.
  all: split; [by eexists|split; [by eexists _, _, _, _|]].
  all: split_and!.
  all: try (intros ? ? H; elem_of_ops H; intros ? H'; by elem_of_ops H').
  all: intros ? H; elem_of_ops H; eexists;
    first [ apply (list_elem_of_lookup_2 _ 1); reflexivity
          | apply (list_elem_of_lookup_2 _ 2); reflexivity
          | apply (list_elem_of_lookup_2 _ 3); reflexivity ].
Qed.

Lemma ensureIngressController_with_deployment_svc (ci : IngressController)
    (deployment : Deployment) (dnsConfig : DNSConfig) (infraConfig : Infrastructure)
    (ingressConfig : IngressConfig) (s : State X) :
  ∃ svc, OpEnsureInternalIngressControllerService svc
           ∈ (ensureIngressController_with_deployment r ci deployment dnsConfig
                infraConfig ingressConfig s).2.
Proof.
  convergence_calls r.
  all: eexists;
    first [ apply (list_elem_of_lookup_2 _ 1); reflexivity
          | apply (list_elem_of_lookup_2 _ 2); reflexivity ].
Qed.

(** A pass of [ensureIngressController] either never ensures the deployment,
    or is a run of the steps before it, all without error, followed by the
    steps after it for the record then in use. *)
Lemma ensureIngressController_run (ci : IngressController) (dnsConfig : DNSConfig)
    (infraConfig : Infrastructure) (ingressConfig : IngressConfig) (s : State X) :
  let out := ensureIngressController r ci dnsConfig infraConfig ingressConfig s in
  (∃ pre ci' deployment s0,
     let t := ensureIngressController_with_deployment r ci' deployment dnsConfig
                infraConfig ingressConfig s0 in
     out = (t.1.1, t.1.2, pre ++ OpEnsureRouterDeployment (inr deployment) :: t.2) ∧
     Forall (λ op, before_deployment op ∧ op_error op = None) pre ∧
     (slice_ContainsString r (Finalizers ci) IngressControllerFinalizer = true →
      ci' = ci)) ∨
  (∀ deployment, OpEnsureRouterDeployment (inr deployment) ∉ out.2).
Proof.
  cbv zeta. unfold ensureIngressController, bind, call, get_heap, ret.
  destruct (slice_ContainsString r _ _); simpl.
  - destruct (ensureRouterNamespace r _) as [[e1|] x1]; simpl.
    { right. intros d H. elem_of_ops H. }
    destruct (ensureRouterDeployment r _ _ _ _) as [[e2|d] x2]; simpl.
    { right. intros d H. elem_of_ops H. }
    left. exists [OpEnsureRouterNamespace None], ci, d, {| heap := heap s; cluster := x2 |}.
    destruct (ensureIngressController_with_deployment r _ _ _ _ _ _) as [[res s'] ops].
    simpl. split_and!; [done| |done]. by repeat constructor.
  - destruct (DeepCopy_run ci s) as (u & h' & -> & _). simpl.
    destruct (client_Update r _ _) as [[e0|] x0]; simpl.
    { right. intros d H. elem_of_ops H. }
    destruct (client_Get_IngressController r _ _) as [[eg|obj] xg]; simpl.
    { right. intros d H. elem_of_ops H. }
    destruct (decode_run obj {| heap := h'; cluster := xg |}) as (ci' & h2 & -> & _).
    simpl.
    destruct (ensureRouterNamespace r _) as [[e1|] x1]; simpl.
    { right. intros d H. elem_of_ops H. }
    destruct (ensureRouterDeployment r _ _ _ _) as [[e2|d] x2]; simpl.
    { right. intros d H. elem_of_ops H. }
    left. eexists [_; _; _], ci', d, {| heap := h2; cluster := x2 |}.
    destruct (ensureIngressController_with_deployment r _ _ _ _ _ _) as [[res s'] ops].
    simpl. split_and!; [done| |done]. by repeat constructor.
Qed.

Lemma ensureIngressController_ops (ci : IngressController) (dnsConfig : DNSConfig)
    (infraConfig : Infrastructure) (ingressConfig : IngressConfig) (s : State X) :
  Forall convergence_op
    (ensureIngressController r ci dnsConfig infraConfig ingressConfig s).2.
Proof.
  assert (∀ ops, Forall after_deployment ops → Forall convergence_op ops) as Hafter.
  { intros ops H. eapply Forall_impl; [exact H|]. by intros []. }
  unfold ensureIngressController, bind, call, get_heap, ret.
  destruct (slice_ContainsString r _ _); simpl.
  - destruct (ensureRouterNamespace r _) as [[e1|] x1]; simpl; [by repeat constructor|].
    destruct (ensureRouterDeployment r _ _ _ _) as [[e2|d] x2]; simpl;
      [by repeat constructor|].
    pose proof (ensureIngressController_with_deployment_ops r ci d dnsConfig
                  infraConfig ingressConfig {| heap := heap s; cluster := x2 |}) as Hops.
    destruct (ensureIngressController_with_deployment r _ _ _ _ _ _) as [[res s'] ops].
    simpl in *. repeat constructor. by apply Hafter.
  - destruct (DeepCopy_run ci s) as (u & h' & -> & _). simpl.
    destruct (client_Update r _ _) as [[e0|] x0]; simpl; [by repeat constructor|].
    destruct (client_Get_IngressController r _ _) as [[eg|obj] xg]; simpl;
      [by repeat constructor|].
    destruct (decode_run obj {| heap := h'; cluster := xg |}) as (ci' & h2 & -> & _).
    simpl.
    destruct (ensureRouterNamespace r _) as [[e1|] x1]; simpl; [by repeat constructor|].
    destruct (ensureRouterDeployment r _ _ _ _) as [[e2|d] x2]; simpl;
      [by repeat constructor|].
    pose proof (ensureIngressController_with_deployment_ops r ci' d dnsConfig
                  infraConfig ingressConfig {| heap := h2; cluster := x2 |}) as Hops.
    destruct (ensureIngressController_with_deployment r _ _ _ _ _ _) as [[res s'] ops].
    simpl in *. repeat constructor. by apply Hafter.
Qed.

(** X14.  [ensureIngressController] and the finalizer: a record that has
    it is neither written nor read again, and the pass starts with the router
    namespace; a record that lacks it is first written with the finalizer
    appended; a failed write ends the pass with [failed to update
    finalizers]; after a successful write the record is read again by
    namespace and name; a failed read ends the pass with [failed to get
    ingresscontroller], and only after a successful one is the namespace
    ensured. *)
Theorem ensureIngressController_finalizer_first (ci : IngressController)
    (dnsConfig : DNSConfig) (infraConfig : Infrastructure)
    (ingressConfig : IngressConfig) (s : State X) :
  let out := ensureIngressController r ci dnsConfig infraConfig ingressConfig s in
  let sent := set_Finalizers (resolve (heap s) ci)
                (Finalizers ci ++ [IngressControllerFinalizer]) in
  let key := {| nn_Namespace := Namespace ci; nn_Name := Name ci |} in
  if slice_ContainsString r (Finalizers ci) IngressControllerFinalizer then
    (* nothing to add: the record is neither written nor read again *)
    (∃ nerr, head out.2 = Some (OpEnsureRouterNamespace nerr)) ∧
    (∀ obj uerr, OpUpdate obj uerr ∉ out.2) ∧
    (∀ k got, OpGetIngressController k got ∉ out.2)
  else
    (* the record with the finalizer appended is written before anything
       else, and read again before anything is ensured *)
    ∃ uerr, head out.2 = Some (OpUpdate sent uerr) ∧
      match uerr with
      | Some err =>
          out.2 = [OpUpdate sent uerr] ∧
          out.1.1 = Some (Errorf "failed to update finalizers" err)
      | None =>
          ∃ got, out.2 !! 1 = Some (OpGetIngressController key got) ∧
            match got with
            | inl err =>
                length out.2 = 2 ∧
                out.1.1 = Some (Errorf "failed to get ingresscontroller" err)
            | inr _ => ∃ nerr, out.2 !! 2 = Some (OpEnsureRouterNamespace nerr)
            end
      end.
Proof.
  cbv zeta.
  pose proof (ensureIngressController_with_deployment_ops r) as Hafter.
  unfold ensureIngressController, bind, call, get_heap, ret.
  destruct (slice_ContainsString r _ _); simpl.
  - destruct (ensureRouterNamespace r _) as [[e1|] x1]; simpl.
    { split_and!; [by eexists|intros ?? H; elem_of_ops H..]. }
    destruct (ensureRouterDeployment r _ _ _ _) as [[e2|d] x2]; simpl.
    { split_and!; [by eexists|intros ?? H; elem_of_ops H..]. }
    specialize (Hafter ci d dnsConfig infraConfig ingressConfig
                  {| heap := heap s; cluster := x2 |}).
    destruct (ensureIngressController_with_deployment r _ _ _ _ _ _) as [[res s'] ops].
    simpl in *. rewrite Forall_forall in Hafter.
    split_and!; [by eexists|intros ?? H; elem_of_ops H; by destruct (Hafter _ H)..].
  - destruct (DeepCopy_run ci s) as (u & h' & -> & _ & Hres & _). simpl.
    assert (resolve h' (set_Finalizers u (Finalizers u ++ [IngressControllerFinalizer]))
            = set_Finalizers (resolve (heap s) ci)
                (Finalizers ci ++ [IngressControllerFinalizer])) as ->.
    { rewrite <- Hres. unfold set_Finalizers, resolve; simpl.
      by rewrite (f_equal Finalizers Hres : Finalizers u = Finalizers ci). }
    replace (Namespace u) with (Namespace ci) by exact (eq_sym (f_equal Namespace Hres)).
    replace (Name u) with (Name ci) by exact (eq_sym (f_equal Name Hres)).
    destruct (client_Update r _ _) as [[e0|] x0]; simpl.
    { by exists (Some e0). }
    destruct (client_Get_IngressController r _ _) as [[eg|obj] xg]; simpl.
    { exists None. split; [done|]. by exists (inl eg). }
    destruct (decode_run obj {| heap := h'; cluster := xg |}) as (ci' & h2 & -> & _).
    simpl.
    destruct (ensureRouterNamespace r _) as [[e1|] x1]; simpl.
    { exists None. split; [done|]. exists (inr obj). split; [done|]. by eexists. }
    destruct (ensureRouterDeployment r _ _ _ _) as [[e2|d] x2]; simpl.
    { exists None. split; [done|]. exists (inr obj). split; [done|]. by eexists. }
    destruct (ensureIngressController_with_deployment r _ _ _ _ _ _) as [[res s'] ops].
    exists None. split; [done|]. exists (inr obj). split; [done|]. by eexists.
Qed.

(** X15.  [ensureIngressController]: a failure to ensure the router
    namespace ends the pass with that error; the deployment is ensured only
    after the namespace was, and after every earlier step succeeded. *)
Theorem ensureIngressController_namespace_first (ci : IngressController)
    (dnsConfig : DNSConfig) (infraConfig : Infrastructure)
    (ingressConfig : IngressConfig) (s : State X) :
  let out := ensureIngressController r ci dnsConfig infraConfig ingressConfig s in
  (∀ err, OpEnsureRouterNamespace (Some err) ∈ out.2 →
     out.1.1 = Some (Errorf "failed to ensure namespace" err) ∧
     last out.2 = Some (OpEnsureRouterNamespace (Some err))) ∧
  (∀ got, OpEnsureRouterDeployment got ∈ out.2 →
     OpEnsureRouterNamespace None ∈ out.2 ∧
     Forall (λ op, before_deployment op → op_error op = None) out.2).
Proof.
  cbv zeta.
  pose proof (ensureIngressController_with_deployment_ops r) as Hafter.
  assert (∀ ops, Forall after_deployment ops →
                 Forall (λ op, before_deployment op → op_error op = None) ops) as Hnot.
  { intros ops H. eapply Forall_impl; [exact H|]. by intros []. }
  unfold ensureIngressController, bind, call, get_heap, ret.
  destruct (slice_ContainsString r _ _); simpl.
  - destruct (ensureRouterNamespace r _) as [[e1|] x1]; simpl.
    { split; [intros ? H; elem_of_ops H; by simplify_eq|intros ? H; elem_of_ops H]. }
    destruct (ensureRouterDeployment r _ _ _ _) as [[e2|d] x2]; simpl.
    { split; [intros ? H; elem_of_ops H|].
      intros ? _. split; [by left|]. by repeat constructor. }
    specialize (Hafter ci d dnsConfig infraConfig ingressConfig
                  {| heap := heap s; cluster := x2 |}).
    destruct (ensureIngressController_with_deployment r _ _ _ _ _ _) as [[res s'] ops].
    simpl in *. split.
    + intros ? H. elem_of_ops H. rewrite Forall_forall in Hafter.
      by destruct (Hafter _ H).
    + intros ? _. split; [by left|]. repeat constructor; try done. by apply Hnot.
  - destruct (DeepCopy_run ci s) as (u & h' & -> & _). simpl.
    destruct (client_Update r _ _) as [[e0|] x0]; simpl.
    { split; intros ? H; elem_of_ops H. }
    destruct (client_Get_IngressController r _ _) as [[eg|obj] xg]; simpl.
    { split; intros ? H; elem_of_ops H. }
    destruct (decode_run obj {| heap := h'; cluster := xg |}) as (ci' & h2 & -> & _).
    simpl.
    destruct (ensureRouterNamespace r _) as [[e1|] x1]; simpl.
    { split; [intros ? H; elem_of_ops H; by simplify_eq|intros ? H; elem_of_ops H]. }
    destruct (ensureRouterDeployment r _ _ _ _) as [[e2|d] x2]; simpl.
    { split; [intros ? H; elem_of_ops H|].
      intros ? _. split; [rewrite !elem_of_cons; by eauto|]. by repeat constructor. }
    specialize (Hafter ci' d dnsConfig infraConfig ingressConfig
                  {| heap := h2; cluster := x2 |}).
    destruct (ensureIngressController_with_deployment r _ _ _ _ _ _) as [[res s'] ops].
    simpl in *. split.
    + intros ? H. elem_of_ops H. rewrite Forall_forall in Hafter.
      by destruct (Hafter _ H).
    + intros ? _. split; [rewrite !elem_of_cons; by eauto|].
      repeat constructor; try done. by apply Hnot.
Qed.

Lemma omap_convergence_error_before (q : string → string) (name : string)
    (pre : list Op) :
  Forall (λ op, before_deployment op ∧ op_error op = None) pre →
  omap (convergence_error q name) pre = [].
Proof.
  induction 1 as [|op pre [Hop _] _ IH]; [done|].
  destruct op; simpl in Hop; try done; exact IH.
Qed.

(** X16.  [ensureIngressController], once the deployment is ensured: the
    result is the aggregate of the errors of the later steps, in the order of
    the calls, each under its step's message for the record in use; it is
    nil exactly when every call of the pass succeeded. *)
Theorem ensureIngressController_reports_every_failure (ci : IngressController)
    (dnsConfig : DNSConfig) (infraConfig : Infrastructure)
    (ingressConfig : IngressConfig) (s : State X) :
  let out := ensureIngressController r ci dnsConfig infraConfig ingressConfig s in
  ∀ deployment,
    OpEnsureRouterDeployment (inr deployment) ∈ out.2 →
    ∃ name,
      out.1.1 = NewAggregate (omap (convergence_error (fmt_q r) name) out.2) ∧
      (slice_ContainsString r (Finalizers ci) IngressControllerFinalizer = true →
       name = Name ci) ∧
      (out.1.1 = None ↔ Forall (λ op, op_error op = None) out.2).
Proof.
  intros out deployment Hin. subst out.
  destruct (ensureIngressController_run ci dnsConfig infraConfig ingressConfig s)
    as [(pre & ci' & d & s0 & Hout & Hpre & Hci)|Hnone]; [|by destruct (Hnone deployment)].
  cbv zeta in Hout. rewrite Hout. simpl. exists (Name ci'). split_and!.
  - rewrite omap_app, (omap_convergence_error_before _ _ _ Hpre). simpl.
    apply ensureIngressController_with_deployment_result.
  - by intros ->%Hci.
  - rewrite ensureIngressController_with_deployment_nil, Forall_app, Forall_cons.
    split; [|tauto]. intros Hall. split_and!; [|done|done].
    eapply Forall_impl; [exact Hpre|]. by intros ? [_ ?].
Qed.

(** X17.  [ensureIngressController], once the deployment is ensured: the
    config map, the pod disruption budget, the event listing and the status
    sync are the last four calls, whatever failed before; the load-balancer
    service and the internal service are always ensured; the wildcard DNS
    record is ensured exactly when the load-balancer service was ensured
    without error, and the metrics are integrated exactly when the internal
    service was. *)
Theorem ensureIngressController_dependent_steps (ci : IngressController)
    (dnsConfig : DNSConfig) (infraConfig : Infrastructure)
    (ingressConfig : IngressConfig) (s : State X) :
  let out := ensureIngressController r ci dnsConfig infraConfig ingressConfig s in
  ∀ deployment,
    OpEnsureRouterDeployment (inr deployment) ∈ out.2 →
    (* the four last steps are always taken *)
    (∃ front e1 e2 evs e3,
       out.2 = front ++
         [OpEnsureRsyslogConfigMap e1; OpEnsureRouterPodDisruptionBudget e2;
          OpListEvents "openshift-ingress" evs; OpSyncIngressControllerStatus e3]) ∧
    (* the DNS record is ensured exactly when the load-balancer service is *)
    (∃ lb, OpEnsureLoadBalancerService lb ∈ out.2) ∧
    (∀ lb err, OpEnsureLoadBalancerService (lb, Some err) ∈ out.2 →
       ∀ record, OpEnsureWildcardDNSRecord record ∉ out.2) ∧
    (∀ lb, OpEnsureLoadBalancerService (lb, None) ∈ out.2 →
       ∃ record, OpEnsureWildcardDNSRecord record ∈ out.2) ∧
    (* the metrics are integrated exactly when the internal service is ensured *)
    (∃ svc, OpEnsureInternalIngressControllerService svc ∈ out.2) ∧
    (∀ svc err, OpEnsureInternalIngressControllerService (svc, Some err) ∈ out.2 →
       ∀ merr, OpEnsureMetricsIntegration merr ∉ out.2) ∧
    (∀ svc, OpEnsureInternalIngressControllerService (svc, None) ∈ out.2 →
       ∃ merr, OpEnsureMetricsIntegration merr ∈ out.2).
Proof.
  intros out deployment Hin. subst out.
  destruct (ensureIngressController_run ci dnsConfig infraConfig ingressConfig s)
    as [(pre & ci' & d & s0 & Hout & Hpre & Hci)|Hnone]; [|by destruct (Hnone deployment)].
  cbv zeta in Hout. rewrite Hout. simpl. clear Hout Hin.
  destruct (ensureIngressController_with_deployment_shape ci' d dnsConfig
              infraConfig ingressConfig s0)
    as ([lb Hhead] & (e1 & e2 & evs & e3 & Hlast) & Hlb1 & Hlb2 & Hint1 & Hint2).
  set (ops := (ensureIngressController_with_deployment r ci' d dnsConfig
                 infraConfig ingressConfig s0).2) in *.
  assert (∀ op, after_deployment op →
            op ∈ pre ++ OpEnsureRouterDeployment (inr d) :: ops ↔ op ∈ ops) as Hmem.
  { intros op Hop. rewrite elem_of_app, elem_of_cons. split; [|by auto].
    intros [Hp|[->|?]]; [|done..].
    rewrite Forall_forall in Hpre. destruct (Hpre _ Hp) as [Hb _]. by destruct op. }
  split_and!.
  - exists (pre ++ OpEnsureRouterDeployment (inr d) :: take (length ops - 4) ops),
      e1, e2, evs, e3.
    rewrite <- Hlast, <- app_assoc. simpl. by rewrite take_drop.
  - exists lb. apply Hmem; [done|]. destruct ops; simplify_eq/=. by left.
  - intros lb' err H%Hmem record H'%Hmem; [|done..]. by eapply Hlb1.
  - intros lb' H%Hmem; [|done]. destruct (Hlb2 _ H) as [record ?].
    exists record. by apply Hmem.
  - destruct (ensureIngressController_with_deployment_svc ci' d dnsConfig
                infraConfig ingressConfig s0) as [svc Hsvc].
    exists svc. by apply Hmem.
  - intros svc err H%Hmem merr H'%Hmem; [|done..]. by eapply Hint1.
  - intros svc H%Hmem; [|done]. destruct (Hint2 _ H) as [merr ?].
    exists merr. by apply Hmem.
Qed.

End convergence_more.

Section passes.
Context {X : Type} (r : Collaborators X) (config : Config).

(** What [Reconcile] relies on from a deletion pass: its calls, that it
    reports no error when none of them failed, and that it reports none and
    leaves the record alone while the wildcard DNS record is there. *)
Lemma ensureIngressDeleted_pass (ingress : IngressController) (s : State X) :
  let d := ensureIngressDeleted r ingress s in
  Forall deletion_op d.2 ∧
  (Forall (λ op, op_error op = None) d.2 → d.1.1 = None) ∧
  (∀ record, OpCurrentWildcardDNSRecord (Some record, None) ∈ d.2 →
     d.1.1 = None ∧ ∀ obj uerr, OpUpdate obj uerr ∉ d.2).
Proof.
  cbv zeta. deletion_paths r ingress s Hrun.
  all: split_and!; [by repeat constructor| |].
  all: try (intros Hall; try done;
            repeat (apply Forall_cons in Hall as [? Hall]); by simplify_eq).
  all: intros record H; elem_of_ops H; simplify_eq.
  all: split; [done|]; intros obj uerr H'; by elem_of_ops H'.
Qed.

(** The same for an admission: without a failed call, the result is nil or
    a rejection. *)
Lemma admit_pass (current : IngressController) (ingressConfig : IngressConfig)
    (infraConfig : Infrastructure) (s : State X) :
  let a := reconciler_admit r config current ingressConfig infraConfig s in
  Forall admission_op a.2 ∧
  (Forall (λ op, op_error op = None) a.2 →
   a.1.1 = None ∨ ∃ Reason, a.1.1 = Some (admissionRejection Reason)).
Proof.
  cbv zeta.
  destruct (admit_run r config current ingressConfig infraConfig s)
    as (computed & _ & _ & _ & _ & Hout). cbv zeta in Hout.
  destruct (cache_List_IngressControllers r (cfg_Namespace config) (cluster s))
    as [[lerr|Items] x1]; simpl in *.
  - rewrite Hout. simpl. split; [by repeat constructor|].
    intros Hall. by apply Forall_cons in Hall as [? _].
  - destruct Hout as [_ Hout].
    destruct (ingressStatusesEqual r _ _);
      try destruct (client_Status_Update r computed x1) as [[uerr|] x2];
      simpl in Hout; rewrite Hout; simpl.
    all: split; [by repeat constructor|].
    all: intros Hall; repeat (apply Forall_cons in Hall as [? Hall]); try done.
    all: destruct (verdict_on computed Items); simpl; by eauto.
Qed.

(** The same for a convergence. *)
Lemma ensureIngressController_pass (ci : IngressController) (dnsConfig : DNSConfig)
    (infraConfig : Infrastructure) (ingressConfig : IngressConfig) (s : State X) :
  let c := ensureIngressController r ci dnsConfig infraConfig ingressConfig s in
  Forall convergence_op c.2 ∧
  (Forall (λ op, op_error op = None) c.2 → c.1.1 = None).
Proof.
  cbv zeta. split; [apply ensureIngressController_ops|].
  destruct (ensureIngressController_run r ci dnsConfig infraConfig ingressConfig s)
    as [(pre & ci' & d & s0 & Hout & _)|Hnone].
  - cbv zeta in Hout. rewrite Hout. simpl.
    rewrite Forall_app, Forall_cons. intros (_ & _ & Hall).
    by apply ensureIngressController_with_deployment_nil.
  - revert Hnone. unfold ensureIngressController, bind, call, get_heap, ret.
    destruct (slice_ContainsString r _ _); simpl.
    + destruct (ensureRouterNamespace r _) as [[e1|] x1]; simpl.
      { intros _ Hall. by apply Forall_cons in Hall as [? _]. }
      destruct (ensureRouterDeployment r _ _ _ _) as [[e2|d] x2]; simpl.
      { intros _ Hall. repeat (apply Forall_cons in Hall as [? Hall]); done. }
      destruct (ensureIngressController_with_deployment r _ _ _ _ _ _) as [[res s'] ops].
      simpl. intros Hnone. destruct (Hnone d). rewrite !elem_of_cons. by eauto.
    + destruct (DeepCopy_run ci s) as (u & h' & -> & _). simpl.
      destruct (client_Update r _ _) as [[e0|] x0]; simpl.
      { intros _ Hall. by apply Forall_cons in Hall as [? _]. }
      destruct (client_Get_IngressController r _ _) as [[eg|obj] xg]; simpl.
      { intros _ Hall. repeat (apply Forall_cons in Hall as [? Hall]); done. }
      destruct (decode_run obj {| heap := h'; cluster := xg |}) as (ci' & h2 & -> & _).
      simpl.
      destruct (ensureRouterNamespace r _) as [[e1|] x1]; simpl.
      { intros _ Hall. repeat (apply Forall_cons in Hall as [? Hall]); done. }
      destruct (ensureRouterDeployment r _ _ _ _) as [[e2|d] x2]; simpl.
      { intros _ Hall. repeat (apply Forall_cons in Hall as [? Hall]); done. }
      destruct (ensureIngressController_with_deployment r _ _ _ _ _ _) as [[res s'] ops].
      simpl. intros Hnone. destruct (Hnone d). rewrite !elem_of_cons. by eauto 6.
Qed.

End passes.

(** Every path of [Reconcile] down to the pass it hands the record to;
    the passes themselves stay folded. *)
Ltac Reconcile_paths r config request s :=
  unfold Reconcile, bind, call, emit;
  destruct (client_Get_IngressController r _ _) as [[?err|?obj] ?x0]; simpl;
  [ destruct (IsNotFound _) eqn:?; simpl
  | match goal with
    | |- context [decode ?obj ?st] =>
        let Hcopy := fresh "Hcopy" in
        destruct (decode_run obj st) as (?ingress & ?h1 & -> & Hcopy);
        destruct Hcopy as (_ & <- & _ & _)
    end; simpl;
    match goal with
    | |- context [DeletionTimestamp ?ingress] =>
        destruct (DeletionTimestamp ingress) eqn:?; simpl
    end;
    [ match goal with
      | |- context [ensureIngressDeleted r ?ingress ?st] =>
          let Hpass := fresh "Hpass" in
          pose proof (ensureIngressDeleted_pass r ingress st) as Hpass;
          cbv zeta in Hpass;
          destruct (ensureIngressDeleted r ingress st) as [[[?derr|] ?sd] ?dops];
          simpl in *; destruct Hpass as (?Hops & ?Hok & ?Hwait)
      end
    | destruct (client_Get_DNS r _ _) as [[?err|?dnsConfig] ?x1]; simpl;
      [| destruct (client_Get_Infrastructure r _ _) as [[?err|?infraConfig] ?x2]; simpl;
         [| destruct (client_Get_Ingress r _ _) as [[?err|?ingressConfig] ?x3]; simpl;
            [| match goal with
               | |- context [isAdmitted ?ingress] =>
                   destruct (isAdmitted ingress) eqn:?; simpl
               end;
               [ match goal with
                 | |- context [ensureIngressController r ?ci ?d ?i ?g ?st] =>
                     let Hpass := fresh "Hpass" in
                     pose proof (ensureIngressController_pass r ci d i g st) as Hpass;
                     cbv zeta in Hpass;
                     destruct (ensureIngressController r ci d i g st)
                       as [[[?cerr|] ?sc] ?cops];
                     simpl in *; destruct Hpass as (?Hops & ?Hok)
                 end
               | match goal with
                 | |- context [reconciler_admit r config ?ci ?g ?i ?st] =>
                     let Hpass := fresh "Hpass" in
                     pose proof (admit_pass r config ci g i st) as Hpass;
                     cbv zeta in Hpass;
                     destruct (reconciler_admit r config ci g i st)
                       as [[[[]|] ?sa] ?aops];
                     simpl in *; destruct Hpass as (?Hops & ?Hok)
                 end ] ] ] ] ] ].

(** The first call of a computation that starts with one. *)
Lemma head_bind_call {X A B} (op : A → Op) (f : X → A * X) (k : A → M X B)
    (s : State X) :
  head (bind (call op f) k s).2 = Some (op (f (cluster s)).1).
Proof.
  unfold bind, call. destruct (f (cluster s)) as [a x]. simpl.
  by destruct (k a _) as [[? ?] ?].
Qed.

Section driver_more.
Context {X : Type} (r : Collaborators X) (config : Config).

(** X18.  A pass of [Reconcile] starts by reading the requested record
    and then does one thing only: nothing when the read fails; for a record
    marked for deletion, deletion calls only (the cluster configuration is
    not read); for a live record, at most the three reads of the cluster
    configuration, followed by convergence calls only when the record is
    admitted, and by admission calls and events only when it is not. *)
Theorem Reconcile_pass_kinds (request : Request) (s : State X) :
  let out := Reconcile r config request s in
  ∃ got rest,
    out.2 = OpGetIngressController (req_NamespacedName request) got :: rest ∧
    match got with
    | inl _ => rest = []
    | inr obj =>
        match DeletionTimestamp obj with
        | Some _ => Forall deletion_op rest
        | None =>
            ∃ reads work,
              rest = reads ++ work ∧ Forall config_read reads ∧ length reads ≤ 3 ∧
              if isAdmitted obj then Forall convergence_op work
              else Forall (λ op, admission_op op ∨ is_event op = true) work
        end
    end.
Proof.
  intros out. subst out.
  Reconcile_paths r config request s.
  all: eexists _, _; (split; [reflexivity|]); simpl; try done.
  all: repeat match goal with
         | H : DeletionTimestamp _ = _ |- _ => rewrite H
         end; try done.
  all: unfold isAdmitted in *; simpl; rewrite ?app_nil_r.
  1,2: done.
  1-3: eexists _, []; rewrite app_nil_r;
    (split_and!; [done|by repeat constructor|simpl; lia|]);
    by destruct (isAdmitted_conditions _).
  all: eexists [_; _; _], _; (split_and!; [done|by repeat constructor|done|]).
  all: match goal with H : isAdmitted_conditions _ = _ |- _ => rewrite H end.
  all: try done.
  all: rewrite ?Forall_app; repeat split; try (by repeat constructor; right).
  all: eapply Forall_impl; [exact Hops|]; by left.
Qed.

(** X19.  [Reconcile] asks for a requeue exactly when it recorded the
    [Admitted] event, and then returns no error; an event is recorded only as
    the last call of a pass that returns no error; and every error it
    returns is a plain message ([fmt.Errorf]), never an admission rejection
    or an API status error. *)
Theorem Reconcile_requeue_and_events (request : Request) (s : State X) :
  let out := Reconcile r config request s in
  (Requeue out.1.1.1 = true ↔
     ∃ name, OpEvent name "Normal" "Admitted" "ingresscontroller passed validation"
               ∈ out.2) ∧
  (Requeue out.1.1.1 = true → out.1.1.2 = None) ∧
  (∀ name type reason message,
     OpEvent name type reason message ∈ out.2 →
     out.1.1.2 = None ∧ last out.2 = Some (OpEvent name type reason message)) ∧
  (∀ err, out.1.1.2 = Some err → ∃ message, err = ErrorString message).
Proof.
  intros out. subst out.
  Reconcile_paths r config request s.
  all: rewrite ?app_nil_r.
  all: try rewrite Forall_forall in Hops.
  all: split_and!.
  all: try (intros ? [= <-]; by eexists).
  all: try done.
  all: try (split; [done|]; intros [? H]; elem_of_ops H;
            solve [by destruct (Hops _ H) | by simplify_eq]).
  all: try (intros ? ? ? ? H; elem_of_ops H;
            try solve [by destruct (Hops _ H)]; simplify_eq;
            split; try done; by rewrite !app_comm_cons, last_snoc).
  split; [|done]. intros _. exists (Name ingress).
  rewrite !elem_of_cons, elem_of_app, list_elem_of_singleton. by eauto 8.
Qed.

(** X20.  [Reconcile] stops at the first failed read of the cluster
    configuration (dns, infrastructure, ingress, in that order): the failed
    read is its last call, and the error is returned under the name of what
    could not be read, without a requeue. *)
Theorem Reconcile_stops_at_failed_config_read (request : Request) (s : State X) :
  let out := Reconcile r config request s in
  (∀ name err, OpGetDNS name (inl err) ∈ out.2 →
     out.1.1 = ({| Requeue := false |},
                Some (Errorf "failed to get dns 'cluster'" err)) ∧
     length out.2 = 2) ∧
  (∀ name err, OpGetInfrastructure name (inl err) ∈ out.2 →
     out.1.1 = ({| Requeue := false |},
                Some (Errorf "failed to get infrastructure 'cluster'" err)) ∧
     length out.2 = 3) ∧
  (∀ name err, OpGetIngress name (inl err) ∈ out.2 →
     out.1.1 = ({| Requeue := false |},
                Some (Errorf "failed to get ingress 'cluster'" err)) ∧
     length out.2 = 4).
Proof.
  intros out. subst out.
  Reconcile_paths r config request s.
  all: rewrite ?app_nil_r.
  all: try rewrite Forall_forall in Hops.
  all: split_and!.
  all: intros name e H; elem_of_ops H;
    solve [by destruct (Hops _ H) | by simplify_eq].
Qed.

(** X21.  While the wildcard DNS record of a deleted ingresscontroller
    is still there, [Reconcile] returns an empty result and no error: it
    neither requeues nor reports; the record was fetched with a deletion
    timestamp, and it is not updated in that pass. *)
Theorem Reconcile_waits_without_requeue (request : Request) (s : State X) :
  let out := Reconcile r config request s in
  ∀ record,
    OpCurrentWildcardDNSRecord (Some record, None) ∈ out.2 →
    out.1.1 = ({| Requeue := false |}, None) ∧
    (∀ obj uerr, OpUpdate obj uerr ∉ out.2) ∧
    ∃ obj t, head out.2 = Some (OpGetIngressController (req_NamespacedName request)
                                  (inr obj)) ∧
             DeletionTimestamp obj = Some t.
Proof.
  intros out. subst out.
  Reconcile_paths r config request s.
  all: rewrite ?app_nil_r.
  all: intros record H; elem_of_ops H.
  all: try (rewrite Forall_forall in Hops; by destruct (Hops _ H)).
  all: destruct (Hwait _ H) as [Hnil Hkeep]; try discriminate Hnil.
  split_and!; [done| |by eauto].
  intros obj' uerr H'. elem_of_ops H'. by eapply Hkeep.
Qed.

(** X22.  [Reconcile] returns an error only if a call it made failed:
    when every call of the pass succeeded, the error is nil. *)
Theorem Reconcile_error_needs_failed_call (request : Request) (s : State X) :
  let out := Reconcile r config request s in
  Forall (λ op, op_error op = None) out.2 → out.1.1.2 = None.
Proof.
  intros out. subst out.
  Reconcile_paths r config request s.
  all: rewrite ?app_nil_r.
  all: intros Hall; try done.
  all: repeat (apply Forall_cons in Hall as [? Hall]); try done.
  all: try apply Forall_app in Hall as [Hall _].
  all: try (by specialize (Hok Hall)).
  all: by destruct (Hok Hall) as [?|[? ?]].
Qed.

(** X23.  [enqueueRequestForOwningIngressController]: an object without
    the owning-ingresscontroller label queues nothing; one with the label
    queues exactly one request, and [Reconcile] of that request first reads
    the record named by the label's value in the operator's namespace. *)
Theorem enqueued_requests_name_the_owner (label : string) (labels : gmap string string)
    (s : State X) :
  let requests := enqueueRequestForOwningIngressController label
                    (cfg_Namespace config) labels in
  (requests = [] ↔ labels !! label = None) ∧
  length requests ≤ 1 ∧
  (∀ request, request ∈ requests →
     labels !! label = Some (nn_Name (req_NamespacedName request)) ∧
     ∃ got, head (Reconcile r config request s).2 =
              Some (OpGetIngressController
                      {| nn_Namespace := cfg_Namespace config;
                         nn_Name := nn_Name (req_NamespacedName request) |} got)).
Proof.
  intros requests. subst requests. unfold enqueueRequestForOwningIngressController.
  destruct (labels !! label) as [ingressName|]; simpl.
  - split_and!; [done|lia|].
    intros request ->%list_elem_of_singleton. split; [done|].
    eexists. unfold Reconcile. apply head_bind_call.
  - split_and!; [done|lia|]. by intros ? ?%elem_of_nil.
Qed.

End driver_more.

(** ** Runs of the further properties *)

(** [explicit] asks for a load-balancer strategy without parameters, on a
    platform whose default is another type: its status gets the type asked
    for, with the external scope. *)
Lemma setDefaultPublishingStrategy_status_has_parameters_witness :
  (∀ l, spec_EndpointPublishingStrategy (Spec Fake.explicit_ic) = Some l →
        is_Some (heap Fake.explicit_state !! l)) ∧
  status_EndpointPublishingStrategy (Status Fake.explicit_ic) = None ∧
  ∃ e,
    deref (heap (setDefaultPublishingStrategy Fake.explicit_ic
                   {| infra_Platform := NonePlatformType |} Fake.explicit_state).1.2)
      (status_EndpointPublishingStrategy
         (Status (setDefaultPublishingStrategy Fake.explicit_ic
                    {| infra_Platform := NonePlatformType |} Fake.explicit_state).1.1.1))
      = Some e ∧
    eps_Type e = LoadBalancerServiceStrategyType ∧
    eps_LoadBalancer e = Some {| lb_Scope := ExternalLoadBalancer |}.
Proof.
  assert (∀ l, spec_EndpointPublishingStrategy (Spec Fake.explicit_ic) = Some l →
               is_Some (heap Fake.explicit_state !! l)) as Hvalid.
  { intros l [= <-]. vm_compute. eauto. }
  split; [exact Hvalid|]. split; [reflexivity|].
  destruct (setDefaultPublishingStrategy_status_has_parameters Fake.explicit_ic
              {| infra_Platform := NonePlatformType |} Fake.explicit_state
              Hvalid eq_refl) as (e & Hd & Hty & Hlb & _).
  exists e. split; [exact Hd|].
  assert (eps_Type e = LoadBalancerServiceStrategyType) as Hty' by exact Hty.
  split; [exact Hty'|]. exact (Hlb Hty').
Defined.

(** [second] asks for the domain [default] holds: it is rejected for that
    conflict. *)
Lemma admit_rejects_only_conflicts_when_a_domain_is_known_witness :
  spec_Domain (Spec (Fake.second_ic : IngressController)) ≠ "" ∧
  ∃ Items other,
    (cache_List_IngressControllers Fake.collaborators (cfg_Namespace Fake.config)
       (Fake.put Fake.second_ic Fake.cluster_with_default)).1 = inr Items ∧
    other ∈ Items ∧
    conflicts (setDefaultDomain (Fake.second_ic : IngressController)
                 {| ingresscfg_Domain := "apps.example.com" |}).1 other ∧
    "conflicts with: default" = "conflicts with: " +:+ Name other.
Proof.
  assert (spec_Domain (Spec (Fake.second_ic : IngressController)) ≠ "") as Hspec
    by discriminate.
  split; [exact Hspec|].
  apply (admit_rejects_only_conflicts_when_a_domain_is_known Fake.collaborators
           Fake.config Fake.second_ic {| ingresscfg_Domain := "apps.example.com" |}
           {| infra_Platform := AWSPlatformType |}
           (Fake.start (Fake.put Fake.second_ic Fake.cluster_with_default))
           (or_intror (or_introl Hspec)) "conflicts with: default").
  vm_compute. reflexivity.
Defined.

(** [default] is deleted and its wildcard DNS record is gone: the finalizer
    is removed at the end of a pass without error. *)
Lemma ensureIngressDeleted_error_keeps_finalizer_witness :
  OpUpdate (set_Finalizers (Fake.default_ic true) []) None
    ∈ (ensureIngressDeleted Fake.collaborators (Fake.default_ic true)
         (Fake.start Fake.cluster_with_deleted)).2 ∧
  last (ensureIngressDeleted Fake.collaborators (Fake.default_ic true)
          (Fake.start Fake.cluster_with_deleted)).2
  = Some (OpUpdate (set_Finalizers (Fake.default_ic true) []) None) ∧
  (ensureIngressDeleted Fake.collaborators (Fake.default_ic true)
     (Fake.start Fake.cluster_with_deleted)).1.1 = None.
Proof.
  assert (OpUpdate (set_Finalizers (Fake.default_ic true) []) None
    ∈ (ensureIngressDeleted Fake.collaborators (Fake.default_ic true)
         (Fake.start Fake.cluster_with_deleted)).2) as Hin.
  { apply (list_elem_of_lookup_2 _ 4). vm_compute. reflexivity. }
  destruct (ensureIngressDeleted_error_keeps_finalizer Fake.collaborators
              (Fake.default_ic true) (Fake.start Fake.cluster_with_deleted) _ _ Hin)
    as (_ & _ & Hlast & Hres).
  split; [exact Hin|]. split; [exact Hlast|exact Hres].
Defined.

(** No load balancer is to be had for [default]: the pass goes on after the
    deployment and returns that one failure, under its step's message. *)
Lemma ensureIngressController_reports_every_failure_witness :
  OpEnsureRouterDeployment
    (inr {| deploy_Name := "router-default"; deploy_UID := "d-1" |})
    ∈ (ensureIngressController Fake.collaborators (Fake.default_ic false)
         {| dns_BaseDomain := "example.com" |} {| infra_Platform := AWSPlatformType |}
         {| ingresscfg_Domain := "apps.example.com" |}
         (Fake.start (Fake.without_load_balancer Fake.cluster_with_default))).2 ∧
  (ensureIngressController Fake.collaborators (Fake.default_ic false)
     {| dns_BaseDomain := "example.com" |} {| infra_Platform := AWSPlatformType |}
     {| ingresscfg_Domain := "apps.example.com" |}
     (Fake.start (Fake.without_load_balancer Fake.cluster_with_default))).1.1
  = Some (Aggregate
            [Errorf "failed to ensure load balancer service for default"
               (ErrorString "no load balancer available")]).
Proof.
  assert (OpEnsureRouterDeployment
    (inr {| deploy_Name := "router-default"; deploy_UID := "d-1" |})
    ∈ (ensureIngressController Fake.collaborators (Fake.default_ic false)
         {| dns_BaseDomain := "example.com" |} {| infra_Platform := AWSPlatformType |}
         {| ingresscfg_Domain := "apps.example.com" |}
         (Fake.start (Fake.without_load_balancer Fake.cluster_with_default))).2) as Hin.
  { apply (list_elem_of_lookup_2 _ 1). vm_compute. reflexivity. }
  split; [exact Hin|].
  destruct (ensureIngressController_reports_every_failure Fake.collaborators
              (Fake.default_ic false) {| dns_BaseDomain := "example.com" |}
              {| infra_Platform := AWSPlatformType |}
              {| ingresscfg_Domain := "apps.example.com" |}
              (Fake.start (Fake.without_load_balancer Fake.cluster_with_default))
              _ Hin) as (name & Hres & Hname & _).
  rewrite Hres, (Hname eq_refl). vm_compute. reflexivity.
Defined.

(** No load balancer is to be had for [default]: its wildcard DNS record is
    not ensured in that pass. *)
Lemma ensureIngressController_dependent_steps_witness :
  OpEnsureRouterDeployment
    (inr {| deploy_Name := "router-default"; deploy_UID := "d-1" |})
    ∈ (ensureIngressController Fake.collaborators (Fake.default_ic false)
         {| dns_BaseDomain := "example.com" |} {| infra_Platform := AWSPlatformType |}
         {| ingresscfg_Domain := "apps.example.com" |}
         (Fake.start (Fake.without_load_balancer Fake.cluster_with_default))).2 ∧
  ∀ record,
    OpEnsureWildcardDNSRecord record
      ∉ (ensureIngressController Fake.collaborators (Fake.default_ic false)
           {| dns_BaseDomain := "example.com" |} {| infra_Platform := AWSPlatformType |}
           {| ingresscfg_Domain := "apps.example.com" |}
           (Fake.start (Fake.without_load_balancer Fake.cluster_with_default))).2.
Proof.
  assert (OpEnsureRouterDeployment
    (inr {| deploy_Name := "router-default"; deploy_UID := "d-1" |})
    ∈ (ensureIngressController Fake.collaborators (Fake.default_ic false)
         {| dns_BaseDomain := "example.com" |} {| infra_Platform := AWSPlatformType |}
         {| ingresscfg_Domain := "apps.example.com" |}
         (Fake.start (Fake.without_load_balancer Fake.cluster_with_default))).2) as Hin.
  { apply (list_elem_of_lookup_2 _ 1). vm_compute. reflexivity. }
  split; [exact Hin|].
  destruct (ensureIngressController_dependent_steps Fake.collaborators
              (Fake.default_ic false) {| dns_BaseDomain := "example.com" |}
              {| infra_Platform := AWSPlatformType |}
              {| ingresscfg_Domain := "apps.example.com" |}
              (Fake.start (Fake.without_load_balancer Fake.cluster_with_default))
              _ Hin) as (_ & _ & Hskip & _).
  apply (Hskip None (ErrorString "no load balancer available")).
  apply (list_elem_of_lookup_2 _ 2). vm_compute. reflexivity.
Defined.

(** [default] is deleted and its wildcard DNS record is still there: the
    pass ends with an empty result and no error. *)
Lemma Reconcile_waits_without_requeue_witness :
  OpCurrentWildcardDNSRecord (Some {| dnsrecord_Name := "default-wildcard" |}, None)
    ∈ (Reconcile Fake.collaborators Fake.config (Fake.request "default")
         (Fake.start (Fake.faulty Fake.cluster_with_deleted 1 false false false))).2 ∧
  (Reconcile Fake.collaborators Fake.config (Fake.request "default")
     (Fake.start (Fake.faulty Fake.cluster_with_deleted 1 false false false))).1.1
  = ({| Requeue := false |}, None).
Proof.
  assert (OpCurrentWildcardDNSRecord
            (Some {| dnsrecord_Name := "default-wildcard" |}, None)
    ∈ (Reconcile Fake.collaborators Fake.config (Fake.request "default")
         (Fake.start (Fake.faulty Fake.cluster_with_deleted 1 false false false))).2)
    as Hin.
  { apply (list_elem_of_lookup_2 _ 3). vm_compute. reflexivity. }
  split; [exact Hin|].
  exact (proj1 (Reconcile_waits_without_requeue Fake.collaborators Fake.config
                  (Fake.request "default")
                  (Fake.start (Fake.faulty Fake.cluster_with_deleted 1 false false false))
                  _ Hin)).
Defined.

(** [default] is admitted and every step of its convergence succeeds: the
    pass returns no error. *)
Lemma Reconcile_error_needs_failed_call_witness :
  Forall (λ op, op_error op = None)
    (Reconcile Fake.collaborators Fake.config (Fake.request "default")
       (Fake.start Fake.cluster_with_default)).2 ∧
  (Reconcile Fake.collaborators Fake.config (Fake.request "default")
     (Fake.start Fake.cluster_with_default)).1.1.2 = None.
Proof.
  assert (Forall (λ op, op_error op = None)
    (Reconcile Fake.collaborators Fake.config (Fake.request "default")
       (Fake.start Fake.cluster_with_default)).2) as Hall.
  { vm_compute. repeat constructor. }
  split; [exact Hall|].
  exact (Reconcile_error_needs_failed_call Fake.collaborators Fake.config
           (Fake.request "default") (Fake.start Fake.cluster_with_default) Hall).
Defined.
